(** * CAN-FD to Ethernet gateway: frame translation and forward loop

    A shallow embedding of [src/main.cpp]: the packed [GatewayPacket]
    record, the body of [run_gateway] that fills it from a [canfd_frame],
    and the forward loop itself as an interaction tree over the system
    calls it makes ([read], [clock_gettime], [sendto], [perror]).
    Start-up ([main], [parse_address], [open_can_socket],
    [open_udp_socket], [set_realtime_priority]) is straight-line code
    and is run against the answers of the operating system. *)

From Stdlib Require Import String ZArith List Bool Lia Sorted.
From ITree Require Import ITree ITreeFacts Events.State Events.StateFacts.
From Paco Require Import paco.
Import ListNotations.
Import ITreeNotations.
Local Open Scope Z_scope.
Local Open Scope itree_scope.

(* ------------------------------------------------------------------ *)
(** ** Fixed-width unsigned integers *)

Definition u8 (x : Z) : Z := x mod 2 ^ 8.
Definition u64 (x : Z) : Z := x mod 2 ^ 64.

Definition is_u8 (x : Z) : Prop := 0 <= x < 2 ^ 8.
Definition is_u32 (x : Z) : Prop := 0 <= x < 2 ^ 32.
Definition is_u64 (x : Z) : Prop := 0 <= x < 2 ^ 64.

(* ------------------------------------------------------------------ *)
(** ** Constants of <linux/can.h> and <errno.h> used by the gateway *)

Definition CANFD_BRS : Z := 0x01.
Definition CANFD_ESI : Z := 0x02.
Definition CANFD_MAX_DLEN : Z := 64.
Definition CAN_EFF_FLAG : Z := 0x80000000.
Definition CAN_RTR_FLAG : Z := 0x40000000.
(** [sizeof(struct canfd_frame)], the kernel's CANFD_MTU. *)
Definition sizeof_canfd_frame : Z := 72.
Definition EINTR : Z := 4.

(* ------------------------------------------------------------------ *)
(** ** Data model *)

(** [struct canfd_frame]: the two reserved bytes carry no information
    the gateway reads and are left out. *)
Module canfd_frame.
Record t : Type := mk
  { can_id : Z;        (* canid_t, 32 bits: id + EFF/RTR/ERR flags *)
    len : Z;           (* __u8 *)
    flags : Z;         (* __u8 *)
    data : list Z      (* __u8 data[CANFD_MAX_DLEN] *) }.

Definition wf (f : t) : Prop :=
  is_u32 (can_id f) /\ is_u8 (len f) /\ is_u8 (flags f) /\
  length (data f) = 64%nat /\ Forall is_u8 (data f).
End canfd_frame.

(** [struct GatewayPacket], declared under [#pragma pack(push, 1)]. *)
Module GatewayPacket.
Record t : Type := mk
  { timestamp_ns : Z;  (* uint64_t *)
    can_id : Z;        (* uint32_t *)
    dlc : Z;           (* uint8_t *)
    flags : Z;         (* uint8_t *)
    data : list Z      (* uint8_t data[64] *) }.

Definition wf (p : t) : Prop :=
  is_u64 (timestamp_ns p) /\ is_u32 (can_id p) /\ is_u8 (dlc p) /\
  is_u8 (flags p) /\ length (data p) = 64%nat /\ Forall is_u8 (data p).

(** Assignment to one member, the others untouched. *)
Definition set_timestamp_ns (p : t) (v : Z) : t :=
  mk v (can_id p) (dlc p) (flags p) (data p).
Definition set_can_id (p : t) (v : Z) : t :=
  mk (timestamp_ns p) v (dlc p) (flags p) (data p).
Definition set_dlc (p : t) (v : Z) : t :=
  mk (timestamp_ns p) (can_id p) v (flags p) (data p).
Definition set_flags (p : t) (v : Z) : t :=
  mk (timestamp_ns p) (can_id p) (dlc p) v (data p).
Definition set_data (p : t) (v : list Z) : t :=
  mk (timestamp_ns p) (can_id p) (dlc p) (flags p) v.
End GatewayPacket.

(** [struct timespec] as filled by [clock_gettime]. *)
Record timespec : Type := mk_timespec { tv_sec : Z; tv_nsec : Z }.

(* ------------------------------------------------------------------ *)
(** ** Structure layout *)

(** A member is [count] elements of [elem_size] bytes; the natural
    alignment of the scalar types used here is their size. *)
Record member : Type := mk_member { elem_size : Z; count : Z }.

Definition member_size (m : member) : Z := elem_size m * count m.
Definition member_align (pack : Z) (m : member) : Z := Z.min pack (elem_size m).
Definition round_up (x a : Z) : Z := (x + a - 1) / a * a.

(** Offsets of the members laid out from [off], and the first free
    offset after the last one. *)
Fixpoint member_offsets (pack off : Z) (ms : list member) : list Z * Z :=
  match ms with
  | [] => ([], off)
  | m :: ms' =>
      let o := round_up off (member_align pack m) in
      let '(os, e) := member_offsets pack (o + member_size m) ms' in
      (o :: os, e)
  end.

Definition struct_align (pack : Z) (ms : list member) : Z :=
  fold_right (fun m a => Z.max (member_align pack m) a) 1 ms.

Definition struct_sizeof (pack : Z) (ms : list member) : Z :=
  round_up (snd (member_offsets pack 0 ms)) (struct_align pack ms).

Definition GatewayPacket_members : list member :=
  [ mk_member 8 1;    (* uint64_t timestamp_ns *)
    mk_member 4 1;    (* uint32_t can_id *)
    mk_member 1 1;    (* uint8_t dlc *)
    mk_member 1 1;    (* uint8_t flags *)
    mk_member 1 64 ]  (* uint8_t data[64] *).

(** [static constexpr size_t PACKET_SIZE = sizeof(GatewayPacket);]
    with the packing of 1 in force at the declaration. *)
Definition PACKET_SIZE : Z := struct_sizeof 1 GatewayPacket_members.

(** Host byte order. *)
Inductive endianness : Type := LittleEndian | BigEndian.

Fixpoint le_bytes (n : nat) (v : Z) : list Z :=
  match n with
  | O => []
  | S n' => (v mod 256) :: le_bytes n' (v / 256)
  end.

Definition scalar_bytes (e : endianness) (n : nat) (v : Z) : list Z :=
  match e with
  | LittleEndian => le_bytes n v
  | BigEndian => rev (le_bytes n v)
  end.

(** Values of the members of a packet, each as the bytes it occupies. *)
Definition GatewayPacket_member_bytes (e : endianness) (p : GatewayPacket.t)
  : list (list Z) :=
  [ scalar_bytes e 8 (GatewayPacket.timestamp_ns p);
    scalar_bytes e 4 (GatewayPacket.can_id p);
    scalar_bytes e 1 (GatewayPacket.dlc p);
    scalar_bytes e 1 (GatewayPacket.flags p);
    GatewayPacket.data p ].

(** Object representation: every member at its offset, the gaps before
    it and the tail up to [size] filled with the padding byte [pad]
    (whose value the language leaves unspecified). *)
Fixpoint place_members (pad : Z) (cur : Z) (offs : list Z) (vals : list (list Z))
  : list Z :=
  match offs, vals with
  | o :: offs', v :: vals' =>
      repeat pad (Z.to_nat (o - cur)) ++ v
        ++ place_members pad (o + Z.of_nat (length v)) offs' vals'
  | _, _ => []
  end.

Definition object_bytes (pack : Z) (e : endianness) (pad : Z) (p : GatewayPacket.t)
  : list Z :=
  let body :=
    place_members pad 0 (fst (member_offsets pack 0 GatewayPacket_members))
      (GatewayPacket_member_bytes e p) in
  body ++ repeat pad
    (Z.to_nat (struct_sizeof pack GatewayPacket_members) - length body).

(** The buffer handed to [sendto]: [PACKET_SIZE] bytes starting at
    [&pkt]. *)
Definition packet_bytes (e : endianness) (pad : Z) (p : GatewayPacket.t) : list Z :=
  firstn (Z.to_nat PACKET_SIZE) (object_bytes 1 e pad p).

(* ------------------------------------------------------------------ *)
(** ** <cstring> on byte arrays

    An array is the list of its bytes; a call that would touch a byte
    outside either array has no defined result. *)

Definition memset (dst : list Z) (c : Z) (n : Z) : option (list Z) :=
  if n <=? Z.of_nat (length dst)
  then Some (repeat (u8 c) (Z.to_nat n) ++ skipn (Z.to_nat n) dst)
  else None.

Definition memcpy (dst src : list Z) (n : Z) : option (list Z) :=
  if (n <=? Z.of_nat (length dst)) && (n <=? Z.of_nat (length src))
  then Some (firstn (Z.to_nat n) src ++ skipn (Z.to_nat n) dst)
  else None.

(* ------------------------------------------------------------------ *)
(** ** The frame translator: lines 112-125 of [run_gateway] *)

(** [static_cast<uint64_t>(ts.tv_sec) * 1000000000ULL + ts.tv_nsec],
    all in 64-bit unsigned arithmetic. *)
Definition timespec_ns (ts : timespec) : Z :=
  u64 (u64 (u64 (tv_sec ts) * 1000000000) + u64 (tv_nsec ts)).

(** "Copy metadata". *)
Definition copy_metadata (frame : canfd_frame.t) (pkt : GatewayPacket.t)
  : GatewayPacket.t :=
  let pkt := GatewayPacket.set_can_id pkt (canfd_frame.can_id frame) in
  let pkt := GatewayPacket.set_dlc pkt (canfd_frame.len frame) in
  let pkt := GatewayPacket.set_flags pkt 0 in
  let pkt :=
    if Z.land (canfd_frame.flags frame) CANFD_BRS =? 0 then pkt
    else GatewayPacket.set_flags pkt (u8 (Z.lor (GatewayPacket.flags pkt) 0x01)) in
  let pkt :=
    if Z.land (canfd_frame.flags frame) CANFD_ESI =? 0 then pkt
    else GatewayPacket.set_flags pkt (u8 (Z.lor (GatewayPacket.flags pkt) 0x02)) in
  pkt.

(** "Copy data (safe, zero-padded)". *)
Definition copy_data (frame : canfd_frame.t) (pkt : GatewayPacket.t)
  : option GatewayPacket.t :=
  match memset (GatewayPacket.data pkt) 0 64 with
  | None => None
  | Some zeroed =>
      if canfd_frame.len frame >? 0 then
        match memcpy zeroed (canfd_frame.data frame) (canfd_frame.len frame) with
        | None => None
        | Some filled => Some (GatewayPacket.set_data pkt filled)
        end
      else Some (GatewayPacket.set_data pkt zeroed)
  end.

(** One frame and one timestamp into the reused packet [pkt]. *)
Definition translate (frame : canfd_frame.t) (now_ns : Z) (pkt : GatewayPacket.t)
  : option GatewayPacket.t :=
  let pkt := GatewayPacket.set_timestamp_ns pkt now_ns in
  let pkt := copy_metadata frame pkt in
  copy_data frame pkt.

(* ------------------------------------------------------------------ *)
(** ** The forward loop as an interaction tree *)

(** What one [read(can_sock, &frame, sizeof(frame))] leaves behind: its
    return value, [errno], and the contents of the frame buffer. *)
Record read_result : Type := mk_read
  { rd_nbytes : Z; rd_errno : Z; rd_frame : canfd_frame.t }.

(** The calls the loop makes, each with what it passes and the type of
    what comes back: [Read] is given the frame buffer and returns it
    as the call left it, [Sendto] is given the [PACKET_SIZE] bytes at
    [&pkt] and returns the result of the call. *)
Variant gatewayE : Type -> Type :=
| Printf (msg : string) : gatewayE unit
| Read (buf : canfd_frame.t) : gatewayE read_result
| ClockGettime : gatewayE timespec
| Sendto (buf : list Z) : gatewayE Z
| Perror (msg : string) : gatewayE unit.

(** The only way out of [while (true)]: a copy past the end of an
    array. *)
Variant fault : Type := OutOfBounds.

(** The machine the gateway runs on: its byte order, and what a
    padding byte of a structure would happen to hold. *)
Record host : Type := mk_host { byte_order : endianness; padding_byte : Z }.

Definition locals : Type := canfd_frame.t * GatewayPacket.t.

Definition wire (h : host) (pkt : GatewayPacket.t) : list Z :=
  packet_bytes (byte_order h) (padding_byte h) pkt.

(** The conversion of an [ssize_t] to [size_t] that the language makes
    before [nbytes != sizeof(frame)] is evaluated. *)
Definition size_t_of (x : Z) : Z := u64 x.

(** One pass through the body of [while (true)]: [inl] is [continue]
    or falling off the end of the body, [inr] a copy that left its
    arrays, after which nothing is defined. *)
Definition iteration (h : host) (st : locals) : itree gatewayE (locals + fault) :=
  let '(frame, pkt) := st in
  r <- ITree.trigger (Read frame) ;;
  let frame := rd_frame r in
  if negb (size_t_of (rd_nbytes r) =? sizeof_canfd_frame) then
    (if (rd_nbytes r <? 0) && negb (rd_errno r =? EINTR)
     then ITree.trigger (Perror "read CAN")
     else Ret tt) ;;
    Ret (inl (frame, pkt))
  else
    ts <- ITree.trigger ClockGettime ;;
    match translate frame (timespec_ns ts) pkt with
    | None => Ret (inr OutOfBounds)
    | Some pkt =>
        rc <- ITree.trigger (Sendto (wire h pkt)) ;;
        (if rc <? 0
         then ITree.trigger (Perror "sendto UDP")
         else Ret tt) ;;
        Ret (inl (frame, pkt))
    end.

Definition while_true (h : host) (st : locals) : itree gatewayE fault :=
  ITree.iter (iteration h) st.

(** ["Starting gateway loop...\n"] *)
Definition starting_message : string :=
  String.append "Starting gateway loop..." (String (Ascii.ascii_of_nat 10) EmptyString).

(** [frame] and [pkt] are the uninitialised locals. *)
Definition run_gateway (h : host) (frame : canfd_frame.t) (pkt : GatewayPacket.t)
  : itree gatewayE fault :=
  ITree.trigger (Printf starting_message) ;;
  while_true h (frame, pkt).

(* ------------------------------------------------------------------ *)
(** ** A scripted environment

    The bus, the monotonic clock and the UDP socket each answer from a
    script; what the gateway writes or sends stays visible. A call
    whose script has run out never returns, which for [read] is the
    idle bus. *)

Record env : Type := mk_env
  { bus : list read_result; clock : list timespec; udp : list Z }.

(** What stays visible: lines on the two output streams (for [perror]
    the prefix it was called with), and every call of [sendto] with
    its buffer and its result. *)
Variant outE : Type -> Type :=
| Stdout (msg : string) : outE unit
| Stderr (msg : string) : outE unit
| Datagram (payload : list Z) (rc : Z) : outE unit.

Definition handle_env : gatewayE ~> Monads.stateT env (itree outE) :=
  fun _ e s =>
    match e with
    | Printf msg => ITree.trigger (Stdout msg) ;; Ret (s, tt)
    | Perror msg => ITree.trigger (Stderr msg) ;; Ret (s, tt)
    | Read _ =>
        match bus s with
        | [] => ITree.spin
        | r :: rest => Ret (mk_env rest (clock s) (udp s), r)
        end
    | ClockGettime =>
        match clock s with
        | [] => ITree.spin
        | ts :: rest => Ret (mk_env (bus s) rest (udp s), ts)
        end
    | Sendto buf =>
        match udp s with
        | [] => ITree.spin
        | rc :: rest =>
            ITree.trigger (Datagram buf rc) ;; Ret (mk_env (bus s) (clock s) rest, rc)
        end
    end.

(** What an observer sees of a program run against the script [s]. *)
Definition observed {R : Type} (t : itree gatewayE R) (s : env)
  : itree outE (env * R) :=
  interp_state handle_env t s.

(* ------------------------------------------------------------------ *)
(** ** Start-up: constants of the system headers *)

Definition EXIT_SUCCESS : Z := 0.
Definition EXIT_FAILURE : Z := 1.
Definition PF_CAN : Z := 29.
Definition AF_CAN : Z := 29.
Definition AF_INET : Z := 2.
Definition SOCK_DGRAM : Z := 2.
Definition SOCK_RAW : Z := 3.
Definition CAN_RAW_FD_FRAMES : Z := 5.
Definition SOL_SOCKET : Z := 1.
Definition SO_SNDBUF : Z := 7.
Definition SIOCGIFINDEX : Z := 0x8933.
Definition IFNAMSIZ : Z := 16.
Definition SCHED_FIFO : Z := 1.
Definition MCL_CURRENT : Z := 1.
Definition MCL_FUTURE : Z := 2.
Definition INT_MIN : Z := - 2 ^ 31.
Definition INT_MAX : Z := 2 ^ 31 - 1.

Definition newline : string := String (Ascii.ascii_of_nat 10) EmptyString.

(* ------------------------------------------------------------------ *)
(** ** C strings and <cstring> on them *)

Definition char_code (c : Ascii.ascii) : Z := Z.of_nat (Ascii.nat_of_ascii c).

(** The characters of a C string: those before its terminator. *)
Fixpoint c_str (s : string) : list Z :=
  match s with
  | EmptyString => []
  | String c s' => if char_code c =? 0 then [] else char_code c :: c_str s'
  end.

(** [strncpy(dst, src, n)], [src] given by its characters: at most [n]
    of them are copied and the rest of the [n] bytes is filled with
    zeros. *)
Definition strncpy (dst : list Z) (src : list Z) (n : Z) : option (list Z) :=
  if n <=? Z.of_nat (length dst)
  then Some (firstn (Z.to_nat n) src
             ++ repeat 0 (Z.to_nat n - length src)
             ++ skipn (Z.to_nat n) dst)
  else None.

(** [a[i] = v] *)
Definition store_byte (a : list Z) (i : Z) (v : Z) : option (list Z) :=
  if (0 <=? i) && (i <? Z.of_nat (length a))
  then Some (firstn (Z.to_nat i) a ++ u8 v :: skipn (S (Z.to_nat i)) a)
  else None.

(** The string a byte array holds: its bytes up to the first zero. *)
Fixpoint until_nul (a : list Z) : list Z :=
  match a with
  | [] => []
  | b :: a' => if b =? 0 then [] else b :: until_nul a'
  end.

(** Lines 43-44 of [open_can_socket], on the name member of the
    uninitialised [ifr]. *)
Definition set_ifr_name (ifr_name : list Z) (ifname : string) : option (list Z) :=
  match strncpy ifr_name (c_str ifname) (IFNAMSIZ - 1) with
  | None => None
  | Some a => store_byte a (IFNAMSIZ - 1) 0
  end.

(* ------------------------------------------------------------------ *)
(** ** [sscanf(addr_str, "%63[^:]:%d", ip, &port)] *)

Definition is_space (c : Ascii.ascii) : bool :=
  (char_code c =? 32) || ((9 <=? char_code c) && (char_code c <=? 13)).

Definition is_digit (c : Ascii.ascii) : bool :=
  (48 <=? char_code c) && (char_code c <=? 57).

Definition digit_value (c : Ascii.ascii) : Z := char_code c - 48.

(** [%63[^:]]: the characters taken, and what is left of the input. *)
Fixpoint scan_not_colon (width : nat) (s : string) : string * string :=
  match width, s with
  | S w, String c s' =>
      if (char_code c =? 0) || (char_code c =? 58) then (EmptyString, s)
      else let '(taken, rest) := scan_not_colon w s' in (String c taken, rest)
  | _, _ => (EmptyString, s)
  end.

Fixpoint skip_spaces (s : string) : string :=
  match s with
  | String c s' => if is_space c then skip_spaces s' else s
  | EmptyString => s
  end.

Fixpoint scan_digits (acc : Z) (s : string) : Z * string :=
  match s with
  | String c s' =>
      if is_digit c then scan_digits (acc * 10 + digit_value c) s' else (acc, s)
  | EmptyString => (acc, s)
  end.

(** [%d]: white space, an optional sign, then at least one digit; the
    value read, as a number. *)
Definition scan_d (s : string) : option Z :=
  let s := skip_spaces s in
  let '(negative, s) :=
    match s with
    | String c s' =>
        if char_code c =? 45 then (true, s')
        else if char_code c =? 43 then (false, s')
        else (false, s)
    | EmptyString => (false, s)
    end in
  match s with
  | String c _ =>
      if is_digit c
      then let '(v, _) := scan_digits 0 s in Some (if negative then - v else v)
      else None
  | EmptyString => None
  end.

(** The two values assigned when the call returns 2; [None] when it
    returns anything else. *)
Definition sscanf_ip_port (addr_str : string) : option (string * Z) :=
  match scan_not_colon 63 addr_str with
  | (EmptyString, _) => None
  | (ip, String c rest) =>
      if char_code c =? 58 then
        match scan_d rest with
        | Some port => Some (ip, port)
        | None => None
        end
      else None
  | (_, EmptyString) => None
  end.

(* ------------------------------------------------------------------ *)
(** ** [parse_address] *)

Definition u16 (x : Z) : Z := x mod 2 ^ 16.

(** [struct sockaddr_in]; [sin_port] and [sin_addr] as the values of
    the integers stored, in the byte order of the host. *)
Record sockaddr_in : Type := mk_sockaddr_in
  { sin_family : Z; sin_port : Z; sin_addr : Z }.

Definition bswap16 (x : Z) : Z := (x mod 256) * 256 + (x / 256) mod 256.

Definition htons (h : host) (x : Z) : Z :=
  match byte_order h with
  | LittleEndian => bswap16 x
  | BigEndian => x
  end.

Definition ntohs (h : host) (x : Z) : Z := htons h x.

(** [inet_pton] is the C library's: [Some a] when
    [inet_pton(AF_INET, ip, &a)] returns 1. A port that does not fit
    an [int] leaves the conversion by [%d] undefined, hence the outer
    [option]. The result is the return value and the [addr] left
    behind. *)
Definition parse_address (inet_pton : string -> option Z) (h : host)
    (addr_str : string) (addr : sockaddr_in) : option (bool * sockaddr_in) :=
  match sscanf_ip_port addr_str with
  | None => Some (false, addr)
  | Some (ip, port) =>
      if (INT_MIN <=? port) && (port <=? INT_MAX) then
        let addr := mk_sockaddr_in AF_INET (sin_port addr) (sin_addr addr) in
        let addr := mk_sockaddr_in (sin_family addr) (htons h (u16 port))
                      (sin_addr addr) in
        match inet_pton ip with
        | Some a =>
            Some (true, mk_sockaddr_in (sin_family addr) (sin_port addr) a)
        | None => Some (false, addr)
        end
      else None
  end.

(* ------------------------------------------------------------------ *)
(** ** The process before the loop

    Start-up is straight-line code over system calls, so it is run
    directly against the answers of the operating system: a
    computation yields the list of what it did and either a value, or
    the exit status of the process, or nothing defined. *)

Inductive syscall : Type :=
| sys_socket (domain type protocol : Z)
| sys_ioctl (fd request : Z) (ifr_name : list Z)
| sys_bind (fd family ifindex : Z)
| sys_close (fd : Z)
| sys_setsockopt (fd level optname optval : Z)
| sys_mlockall (flags : Z)
| sys_sched_get_priority_max (policy : Z)
| sys_sched_setscheduler (pid policy priority : Z).

Inductive printf_arg : Type :=
| arg_s (s : string)
| arg_d (n : Z).

Inductive stream : Type := to_stdout | to_stderr.

(** What the process does: a system call with what it returned, a
    formatted line (format and arguments as passed), a [perror] with
    its prefix. *)
Inductive action : Type :=
| Call (c : syscall) (ret : Z)
| Print (to : stream) (format : string) (args : list printf_arg)
| PerrorLine (prefix : string).

(** The answers of the operating system and of the parts of the C
    library that are taken as given. *)
Record os : Type := mk_os
  { answer : syscall -> Z;
    ifindex_of : list Z -> Z;
    os_inet_pton : string -> option Z;
    os_inet_ntoa : Z -> string }.

Inductive outcome (A : Type) : Type :=
| Returned (a : A)
| Exited (status : Z)
| Undefined.
Arguments Returned {A} a.
Arguments Exited {A} status.
Arguments Undefined {A}.

Definition proc (A : Type) : Type := os -> list action * outcome A.

Definition proc_ret {A : Type} (a : A) : proc A := fun _ => ([], Returned a).

Definition proc_bind {A B : Type} (m : proc A) (k : A -> proc B) : proc B :=
  fun o =>
    let '(t1, r) := m o in
    match r with
    | Returned a => let '(t2, r') := k a o in (t1 ++ t2, r')
    | Exited status => (t1, Exited status)
    | Undefined => (t1, Undefined)
    end.

Declare Scope proc_scope.
Delimit Scope proc_scope with proc.
Bind Scope proc_scope with proc.
Notation "x <- m ;; k" := (proc_bind m (fun x => k))
  (at level 61, m at next level, right associativity) : proc_scope.
Notation "m ;; k" := (proc_bind m (fun _ => k))
  (at level 61, right associativity) : proc_scope.

Definition call (c : syscall) : proc Z :=
  fun o => ([Call c (answer o c)], Returned (answer o c)).

Definition printf (format : string) (args : list printf_arg) : proc unit :=
  fun _ => ([Print to_stdout format args], Returned tt).

Definition fprintf_stderr (format : string) (args : list printf_arg) : proc unit :=
  fun _ => ([Print to_stderr format args], Returned tt).

Definition perror (prefix : string) : proc unit :=
  fun _ => ([PerrorLine prefix], Returned tt).

(** [exit(status)], and [return status] from [main]. *)
Definition exit {A : Type} (status : Z) : proc A := fun _ => ([], Exited status).

Definition defined {A : Type} (x : option A) : proc A :=
  fun _ => ([], match x with Some a => Returned a | None => Undefined end).

Definition ask {A : Type} (f : os -> A) : proc A := fun o => ([], Returned (f o)).

(** [ifr_name] is the name member of the uninitialised [ifr]. *)
Definition open_can_socket (ifr_name : list Z) (ifname : string) : proc Z :=
  (s <- call (sys_socket PF_CAN SOCK_RAW CAN_RAW_FD_FRAMES) ;;
   if s <? 0 then
     perror "Failed to create CAN socket" ;;
     exit EXIT_FAILURE
   else
     name <- defined (set_ifr_name ifr_name ifname) ;;
     rc <- call (sys_ioctl s SIOCGIFINDEX name) ;;
     if rc <? 0 then
       perror "ioctl SIOCGIFINDEX" ;;
       call (sys_close s) ;;
       exit EXIT_FAILURE
     else
       ifindex <- ask (fun o => ifindex_of o name) ;;
       rc <- call (sys_bind s AF_CAN ifindex) ;;
       if rc <? 0 then
         perror "bind CAN socket" ;;
         call (sys_close s) ;;
         exit EXIT_FAILURE
       else
         printf ("CAN socket opened on %s" ++ newline) [arg_s ifname] ;;
         proc_ret s)%proc.

Definition open_udp_socket (ip : string) (port : Z) : proc Z :=
  (s <- call (sys_socket AF_INET SOCK_DGRAM 0) ;;
   if s <? 0 then
     perror "UDP socket" ;;
     exit EXIT_FAILURE
   else
     call (sys_setsockopt s SOL_SOCKET SO_SNDBUF (Z.shiftl 1 20)) ;;
     printf ("UDP socket opened to %s:%d" ++ newline) [arg_s ip; arg_d port] ;;
     proc_ret s)%proc.

Definition set_realtime_priority : proc unit :=
  (priority <- call (sys_sched_get_priority_max SCHED_FIFO) ;;
   rc <- call (sys_sched_setscheduler 0 SCHED_FIFO priority) ;;
   if rc =? -1 then
     fprintf_stderr
       ("WARNING: Failed to set SCHED_FIFO (run as root for best latency)"
        ++ newline) []
   else
     printf ("Real-time priority (SCHED_FIFO) set successfully" ++ newline) [])%proc.

(** [main] with [argv[0] = prog] and the further arguments [args], up
    to line 175: [Returned (can_sock, udp_sock, dest_addr)] is the
    call of [run_gateway] on these, whose loop has no exit. *)
Definition main (h : host) (ifr_name : list Z) (prog : string) (args : list string)
  : proc (Z * Z * sockaddr_in) :=
  match args with
  | [can_if; dest_str] =>
      (parsed <- (fun o => defined (parse_address (os_inet_pton o) h dest_str
                                      (mk_sockaddr_in 0 0 0)) o) ;;
       let '(ok, dest_addr) := parsed in
       if negb ok then
         fprintf_stderr ("Invalid destination: %s (expected IP:port)" ++ newline)
           [arg_s dest_str] ;;
         exit EXIT_FAILURE
       else
         rc <- call (sys_mlockall (Z.lor MCL_CURRENT MCL_FUTURE)) ;;
         (if rc =? -1 then
            fprintf_stderr
              ("WARNING: mlockall failed (run as root for best real-time behavior)"
               ++ newline) []
          else proc_ret tt) ;;
         set_realtime_priority ;;
         can_sock <- open_can_socket ifr_name can_if ;;
         ip <- ask (fun o => os_inet_ntoa o (sin_addr dest_addr)) ;;
         udp_sock <- open_udp_socket ip (ntohs h (sin_port dest_addr)) ;;
         proc_ret (can_sock, udp_sock, dest_addr))%proc
  | _ =>
      (fprintf_stderr ("Usage: %s <can_interface> <dest_ip:port>" ++ newline)
         [arg_s prog] ;;
       fprintf_stderr ("Example: %s can0 192.168.1.100:5000" ++ newline)
         [arg_s prog] ;;
       exit EXIT_FAILURE)%proc
  end.

(* ------------------------------------------------------------------ *)
(** ** Vocabulary of the properties *)

(** A frame the bus source may hand over: well-formed as a C object,
    with a length the CAN-FD protocol allows. *)
Definition valid_frame (f : canfd_frame.t) : Prop :=
  canfd_frame.wf f /\ canfd_frame.len f <= CANFD_MAX_DLEN.

(** The data array after a translation: the payload, then zeros. *)
Definition padded_payload (frame : canfd_frame.t) : list Z :=
  firstn (Z.to_nat (canfd_frame.len frame)) (canfd_frame.data frame)
  ++ repeat 0 (64 - Z.to_nat (canfd_frame.len frame)).

(** The frames of consecutive passes, each with the timestamp taken
    for it, translated one after the other into the same buffer. *)
Fixpoint translate_seq (pkt : GatewayPacket.t) (inputs : list (canfd_frame.t * Z))
  : option (list GatewayPacket.t) :=
  match inputs with
  | [] => Some []
  | (frame, now_ns) :: rest =>
      match translate frame now_ns pkt with
      | None => None
      | Some pkt' => option_map (cons pkt') (translate_seq pkt' rest)
      end
  end.

(** A read that did not deliver one whole frame: short, empty, or an
    error return. *)
Definition failed_read (r : read_result) : Prop :=
  size_t_of (rd_nbytes r) <> sizeof_canfd_frame.

(** A read that filled the frame buffer. *)
Definition whole_read (r : read_result) : Prop :=
  rd_nbytes r = sizeof_canfd_frame.

(** The frame buffer after a run of reads. *)
Definition frame_after (frame : canfd_frame.t) (reads : list read_result)
  : canfd_frame.t :=
  fold_left (fun _ r => rd_frame r) reads frame.

(** What reaches the diagnostic channel after a read that is not a
    whole frame, and after a [sendto]. *)
Definition read_diagnostic (r : read_result) : itree outE unit :=
  if (rd_nbytes r <? 0) && negb (rd_errno r =? EINTR)
  then ITree.trigger (Stderr "read CAN")
  else Ret tt.

Definition send_diagnostic (rc : Z) : itree outE unit :=
  if rc <? 0 then ITree.trigger (Stderr "sendto UDP") else Ret tt.

(** The diagnostics of a run of failed reads, in order. *)
Fixpoint read_diagnostics (reads : list read_result) : itree outE unit :=
  match reads with
  | [] => Ret tt
  | r :: rest => read_diagnostic r ;; read_diagnostics rest
  end.

(** The datagrams of a run of translated frames with the results of
    their [sendto], in order. *)
Fixpoint transmissions (h : host) (sent : list (GatewayPacket.t * Z))
  : itree outE unit :=
  match sent with
  | [] => Ret tt
  | (p, rc) :: rest =>
      ITree.trigger (Datagram (wire h p) rc) ;;
      send_diagnostic rc ;;
      transmissions h rest
  end.

(** A host part [%63[^:]] takes whole: no colon and no terminator in
    it. *)
Fixpoint plain_host (s : string) : bool :=
  match s with
  | EmptyString => true
  | String c s' =>
      negb ((char_code c =? 0) || (char_code c =? 58)) && plain_host s'
  end.

Definition starts_with (p : Ascii.ascii -> bool) (s : string) : bool :=
  match s with
  | String c _ => p c
  | EmptyString => false
  end.

Definition digit_char (d : Z) : Ascii.ascii :=
  Ascii.ascii_of_nat (Z.to_nat (48 + d)).

Fixpoint digit_string (ds : list Z) : string :=
  match ds with
  | [] => EmptyString
  | d :: ds' => String (digit_char d) (digit_string ds')
  end.

Definition digits_value (ds : list Z) : Z :=
  fold_left (fun acc d => acc * 10 + d) ds 0.

Definition is_decimal_digit (d : Z) : Prop := 0 <= d <= 9.

Definition colon : string := String (Ascii.ascii_of_nat 58) EmptyString.

(** The 16 bytes of the name member once [open_can_socket] has filled
    them. *)
Definition ifr_name_of (ifname : string) : list Z :=
  firstn 15 (c_str ifname) ++ 0 :: repeat 0 (15 - length (c_str ifname)).

Definition is_call (a : action) : bool :=
  match a with
  | Call _ _ => true
  | _ => false
  end.

(** The calls that only tune the process: memory locking and
    scheduling. *)
Definition is_tuning (c : syscall) : bool :=
  match c with
  | sys_mlockall _ | sys_sched_get_priority_max _
  | sys_sched_setscheduler _ _ _ => true
  | _ => false
  end.

(** Two systems that differ at most in what they answer to tuning
    calls. *)
Definition same_but_tuning (o1 o2 : os) : Prop :=
  (forall c, is_tuning c = false -> answer o1 c = answer o2 c)
  /\ (forall name, ifindex_of o1 name = ifindex_of o2 name)
  /\ (forall ip, os_inet_pton o1 ip = os_inet_pton o2 ip)
  /\ (forall a, os_inet_ntoa o1 a = os_inet_ntoa o2 a).

(** The calls of a run that are not tuning calls, with what they
    returned. *)
Fixpoint io_calls (t : list action) : list (syscall * Z) :=
  match t with
  | [] => []
  | Call c ret :: t' =>
      if is_tuning c then io_calls t' else (c, ret) :: io_calls t'
  | _ :: t' => io_calls t'
  end.

(** The socket calls of a start-up that got past its arguments, in
    order, as they follow from the answers. *)
Definition expected_io_calls (o : os) (can_if : string) : list (syscall * Z) :=
  let open_can := sys_socket PF_CAN SOCK_RAW CAN_RAW_FD_FRAMES in
  let s := answer o open_can in
  let name := ifr_name_of can_if in
  let ioctl := sys_ioctl s SIOCGIFINDEX name in
  let bind := sys_bind s AF_CAN (ifindex_of o name) in
  let open_udp := sys_socket AF_INET SOCK_DGRAM 0 in
  let u := answer o open_udp in
  let sndbuf := sys_setsockopt u SOL_SOCKET SO_SNDBUF (Z.shiftl 1 20) in
  (open_can, s) ::
  if s <? 0 then [] else
  (ioctl, answer o ioctl) ::
  if answer o ioctl <? 0 then [(sys_close s, answer o (sys_close s))] else
  (bind, answer o bind) ::
  if answer o bind <? 0 then [(sys_close s, answer o (sys_close s))] else
  (open_udp, u) ::
  if u <? 0 then [] else [(sndbuf, answer o sndbuf)].

Definition can_socket_of (o : os) : Z :=
  answer o (sys_socket PF_CAN SOCK_RAW CAN_RAW_FD_FRAMES).

(* ------------------------------------------------------------------ *)
(** ** Concrete inputs *)

(** The example of the specification, with payload bytes past the
    length that must not be forwarded, and a buffer full of stale
    bytes. *)
Definition example_frame : canfd_frame.t :=
  canfd_frame.mk 0x123 3 CANFD_BRS ([0xAA; 0xBB; 0xCC] ++ repeat 0x5A 61).
Definition stale_packet : GatewayPacket.t :=
  GatewayPacket.mk 7 0xFFFFFFFF 64 0xFF (repeat 0xFF 64).
Definition example_host : host := mk_host LittleEndian 0xEE.

Definition flags_frame (fl : Z) : canfd_frame.t :=
  canfd_frame.mk 0x123 3 fl (canfd_frame.data example_frame).

Definition extended_rtr_frame : canfd_frame.t :=
  canfd_frame.mk (Z.lor (Z.lor CAN_EFF_FLAG CAN_RTR_FLAG) 0x1ABCDEF0) 8 0
    (canfd_frame.data example_frame).

Definition empty_frame : canfd_frame.t :=
  canfd_frame.mk 0x7FF 0 0 (canfd_frame.data example_frame).
Definition empty_frame_read : read_result := mk_read 72 0 empty_frame.
Definition one_second : timespec := mk_timespec 1 0.

(** A frame object whose length byte is beyond what CAN-FD allows. *)
Definition overlong_frame : canfd_frame.t :=
  canfd_frame.mk 0x123 200 0 (canfd_frame.data example_frame).

Definition three_inputs : list (canfd_frame.t * Z) :=
  [(example_frame, 1000000000); (empty_frame, 1000000000);
   (extended_rtr_frame, 1000250000)].

(** A classic CAN frame (16 bytes), an empty read, and an error return
    with [errno] set to EIO. *)
Definition three_failed_reads : list read_result :=
  [ mk_read 16 0 example_frame; mk_read 0 0 example_frame;
    mk_read (-1) 5 example_frame ].
Definition example_read : read_result := mk_read 72 0 example_frame.

Definition zeroed_packet : GatewayPacket.t :=
  GatewayPacket.mk 0 0 0 0 (repeat 0 64).

Definition interrupted_read : read_result := mk_read (-1) EINTR example_frame.

(** A resolver that knows one address, and a computer on which every
    call succeeds except the two that need privileges. *)
Definition toy_inet_pton (ip : string) : option Z :=
  if String.eqb ip "192.168.1.100" then Some 0x6401A8C0 else None.

Definition toy_os : os :=
  mk_os (fun c => match c with
                  | sys_socket d _ _ => if d =? PF_CAN then 3 else 4
                  | sys_sched_get_priority_max _ => 99
                  | sys_sched_setscheduler _ _ _ => -1
                  | sys_mlockall _ => -1
                  | _ => 0
                  end)
        (fun _ => 7) toy_inet_pton (fun _ => "192.168.1.100"%string).

(** The same computer with the tuning calls going through. *)
Definition privileged_os : os :=
  mk_os (fun c => if is_tuning c then 0 else answer toy_os c)
        (ifindex_of toy_os) (os_inet_pton toy_os) (os_inet_ntoa toy_os).

(** A computer on which the interface exists but cannot be bound. *)
Definition unbindable_os : os :=
  mk_os (fun c => match c with
                  | sys_bind _ _ _ => -1
                  | _ => answer toy_os c
                  end)
        (ifindex_of toy_os) (os_inet_pton toy_os) (os_inet_ntoa toy_os).

(* ================================================================== *)
(** * Properties *)

(** ** Layout *)

Lemma le_bytes_length n v : length (le_bytes n v) = n.
Proof. revert v; induction n as [|n IH]; intros v; simpl; [|rewrite IH]; reflexivity. Qed.

Lemma scalar_bytes_length e n v : length (scalar_bytes e n v) = n.
Proof.
  destruct e; simpl; [|rewrite length_rev]; apply le_bytes_length.
Qed.

Lemma scalar_bytes_1 e v : scalar_bytes e 1 v = [v mod 256].
Proof. destruct e; reflexivity. Qed.

Lemma PACKET_SIZE_78 : PACKET_SIZE = 78.
Proof. reflexivity. Qed.

(** Without the pragma the structure would end in two padding bytes. *)
Lemma sizeof_unpacked : struct_sizeof 8 GatewayPacket_members = 80.
Proof. reflexivity. Qed.

Lemma packet_bytes_layout e pad p :
  length (GatewayPacket.data p) = 64%nat ->
  packet_bytes e pad p =
    scalar_bytes e 8 (GatewayPacket.timestamp_ns p)
    ++ scalar_bytes e 4 (GatewayPacket.can_id p)
    ++ scalar_bytes e 1 (GatewayPacket.dlc p)
    ++ scalar_bytes e 1 (GatewayPacket.flags p)
    ++ GatewayPacket.data p.
Proof.
  intros Hd.
  set (image := scalar_bytes e 8 _ ++ _).
  assert (Hlen : length image = 78%nat).
  { unfold image. rewrite !length_app, !scalar_bytes_length, Hd. reflexivity. }
  assert (Hobj : object_bytes 1 e pad p = image).
  { unfold object_bytes.
    change (fst (member_offsets 1 0 GatewayPacket_members)) with [0; 8; 12; 13; 14].
    change (struct_sizeof 1 GatewayPacket_members) with 78.
    unfold GatewayPacket_member_bytes. cbn [place_members].
    rewrite !scalar_bytes_length.
    change (Z.to_nat (0 - 0)) with 0%nat.
    change (Z.to_nat (8 - (0 + Z.of_nat 8))) with 0%nat.
    change (Z.to_nat (12 - (8 + Z.of_nat 4))) with 0%nat.
    change (Z.to_nat (13 - (12 + Z.of_nat 1))) with 0%nat.
    change (Z.to_nat (14 - (13 + Z.of_nat 1))) with 0%nat.
    cbn [repeat app]. rewrite (app_nil_r (GatewayPacket.data p)).
    fold image. rewrite Hlen. apply app_nil_r. }
  unfold packet_bytes. rewrite Hobj, PACKET_SIZE_78.
  change (Z.to_nat 78) with 78%nat. rewrite <- Hlen. apply firstn_all.
Qed.

(** ** <cstring> *)

Lemma skipn_repeat {A : Type} (x : A) (k n : nat) :
  skipn k (repeat x n) = repeat x (n - k).
Proof.
  revert n; induction k as [|k IH]; intros [|n]; simpl; auto.
Qed.

Lemma memset_whole dst c :
  length dst = 64%nat -> memset dst c 64 = Some (repeat (u8 c) 64).
Proof.
  intros Hd. unfold memset. rewrite Hd.
  change (64 <=? Z.of_nat 64) with true. cbv iota.
  change (Z.to_nat 64) with 64%nat.
  rewrite skipn_all2 by lia. now rewrite app_nil_r.
Qed.

Lemma memcpy_within src n :
  length src = 64%nat -> 0 <= n <= 64 ->
  memcpy (repeat 0 64) src n =
    Some (firstn (Z.to_nat n) src ++ repeat 0 (64 - Z.to_nat n)).
Proof.
  intros Hs Hn. unfold memcpy. rewrite repeat_length, Hs.
  replace (n <=? Z.of_nat 64) with true by (symmetry; apply Z.leb_le; lia).
  cbn [andb]. now rewrite skipn_repeat.
Qed.

Lemma memcpy_overrun dst src n :
  Z.of_nat (length dst) < n -> memcpy dst src n = None.
Proof.
  intros Hn. unfold memcpy.
  replace (n <=? Z.of_nat (length dst)) with false
    by (symmetry; apply Z.leb_gt; lia).
  reflexivity.
Qed.

(** ** Flag mapping *)

Lemma land_low2_cases x :
  let r := Z.land x 3 in r = 0 \/ r = 1 \/ r = 2 \/ r = 3.
Proof.
  cbv zeta.
  assert (Z.land x 3 = x mod 4) as -> by (apply (Z.land_ones x 2); lia).
  pose proof (Z.mod_pos_bound x 4 ltac:(lia)). lia.
Qed.

Lemma land_through_low2 x m : Z.land 3 m = m -> Z.land x m = Z.land (Z.land x 3) m.
Proof. intros Hm. now rewrite <- Z.land_assoc, Hm. Qed.

Lemma copy_metadata_flags frame pkt :
  GatewayPacket.flags (copy_metadata frame pkt)
  = Z.land (canfd_frame.flags frame) (Z.lor CANFD_BRS CANFD_ESI).
Proof.
  unfold copy_metadata, CANFD_BRS, CANFD_ESI.
  change (Z.lor 1 2) with 3.
  rewrite (land_through_low2 (canfd_frame.flags frame) 1) by reflexivity.
  rewrite (land_through_low2 (canfd_frame.flags frame) 2) by reflexivity.
  destruct (land_low2_cases (canfd_frame.flags frame)) as [H|[H|[H|H]]];
    rewrite H; reflexivity.
Qed.

Lemma copy_metadata_fields frame pkt :
  GatewayPacket.timestamp_ns (copy_metadata frame pkt) = GatewayPacket.timestamp_ns pkt
  /\ GatewayPacket.can_id (copy_metadata frame pkt) = canfd_frame.can_id frame
  /\ GatewayPacket.dlc (copy_metadata frame pkt) = canfd_frame.len frame
  /\ GatewayPacket.data (copy_metadata frame pkt) = GatewayPacket.data pkt.
Proof.
  unfold copy_metadata.
  destruct (Z.land (canfd_frame.flags frame) CANFD_BRS =? 0),
           (Z.land (canfd_frame.flags frame) CANFD_ESI =? 0);
    repeat split.
Qed.

(** ** The translator on valid frames *)

Lemma copy_data_valid frame pkt :
  valid_frame frame -> length (GatewayPacket.data pkt) = 64%nat ->
  copy_data frame pkt = Some (GatewayPacket.set_data pkt (padded_payload frame)).
Proof.
  intros [(_ & [Hlo _] & _ & Hsrc & _) Hhi] Hdst. unfold CANFD_MAX_DLEN in Hhi.
  unfold copy_data. rewrite (memset_whole _ _ Hdst). change (u8 0) with 0.
  destruct (canfd_frame.len frame >? 0) eqn:Hpos.
  - rewrite memcpy_within by (auto; lia). reflexivity.
  - unfold padded_payload.
    assert (canfd_frame.len frame = 0) as -> by (rewrite Z.gtb_ltb in Hpos; apply Z.ltb_ge in Hpos; lia).
    reflexivity.
Qed.

Lemma translate_valid frame now_ns pkt :
  valid_frame frame -> length (GatewayPacket.data pkt) = 64%nat ->
  translate frame now_ns pkt =
    Some (GatewayPacket.mk now_ns (canfd_frame.can_id frame) (canfd_frame.len frame)
            (Z.land (canfd_frame.flags frame) (Z.lor CANFD_BRS CANFD_ESI))
            (padded_payload frame)).
Proof.
  intros Hf Hd. unfold translate.
  set (p0 := GatewayPacket.set_timestamp_ns pkt now_ns).
  destruct (copy_metadata_fields frame p0) as (Ht & Hi & Hl & Hdat).
  rewrite copy_data_valid by (auto; rewrite Hdat; exact Hd).
  unfold GatewayPacket.set_data.
  rewrite Ht, Hi, Hl, copy_metadata_flags. reflexivity.
Qed.

Lemma padded_payload_length frame :
  0 <= canfd_frame.len frame <= 64 ->
  length (canfd_frame.data frame) = 64%nat ->
  length (padded_payload frame) = 64%nat.
Proof.
  intros Hl Hs. unfold padded_payload.
  rewrite length_app, length_firstn, repeat_length, Hs. lia.
Qed.

Lemma copy_data_overrun frame pkt :
  length (GatewayPacket.data pkt) = 64%nat -> 64 < canfd_frame.len frame ->
  copy_data frame pkt = None.
Proof.
  intros Hd Hl. unfold copy_data. rewrite (memset_whole _ _ Hd).
  replace (canfd_frame.len frame >? 0) with true
    by (symmetry; rewrite Z.gtb_ltb; apply Z.ltb_lt; lia).
  rewrite memcpy_overrun; [reflexivity | rewrite repeat_length; lia].
Qed.

(** ** One pass of the loop against the scripted environment *)

#[local] Arguments wire : simpl never.
#[local] Arguments translate : simpl never.
#[local] Arguments timespec_ns : simpl never.
#[local] Arguments size_t_of : simpl never.

Lemma observed_failed_read h frame pkt r rest clk u :
  size_t_of (rd_nbytes r) <> sizeof_canfd_frame ->
  observed (while_true h (frame, pkt)) (mk_env (r :: rest) clk u)
  ≈ (read_diagnostic r ;;
     observed (while_true h (rd_frame r, pkt)) (mk_env rest clk u)).
Proof.
  intros Hn. apply Z.eqb_neq in Hn.
  unfold observed, while_true, read_diagnostic.
  rewrite unfold_iter. unfold iteration at 1.
  rewrite bind_bind, interp_state_bind, interp_state_trigger. cbn.
  rewrite bind_ret_l. cbn. rewrite Hn. cbn. rewrite bind_bind.
  destruct ((rd_nbytes r <? 0) && negb (rd_errno r =? EINTR)).
  - rewrite interp_state_bind, interp_state_trigger. cbn.
    rewrite bind_bind. setoid_rewrite bind_ret_l. cbn.
    setoid_rewrite bind_ret_l. setoid_rewrite interp_state_tau.
    setoid_rewrite tau_eutt. reflexivity.
  - rewrite !bind_ret_l, interp_state_tau, tau_eutt. reflexivity.
Qed.

Lemma observed_full_read h frame pkt pkt' r rest ts clk rc u :
  rd_nbytes r = sizeof_canfd_frame ->
  translate (rd_frame r) (timespec_ns ts) pkt = Some pkt' ->
  observed (while_true h (frame, pkt)) (mk_env (r :: rest) (ts :: clk) (rc :: u))
  ≈ (ITree.trigger (Datagram (wire h pkt') rc) ;;
     send_diagnostic rc ;;
     observed (while_true h (rd_frame r, pkt')) (mk_env rest clk u)).
Proof.
  intros Hn Htr.
  assert (Hn' : (size_t_of (rd_nbytes r) =? sizeof_canfd_frame) = true)
    by (rewrite Hn; reflexivity).
  unfold observed, while_true, send_diagnostic.
  rewrite unfold_iter. unfold iteration at 1.
  rewrite bind_bind, interp_state_bind, interp_state_trigger. cbn.
  rewrite bind_ret_l. cbn. rewrite Hn'. cbn.
  rewrite bind_bind, interp_state_bind, interp_state_trigger. cbn.
  rewrite bind_ret_l. cbn. rewrite Htr.
  rewrite !bind_bind, interp_state_bind, interp_state_trigger. cbn.
  rewrite bind_bind. setoid_rewrite bind_ret_l. cbn.
  apply eutt_eq_bind; intros [].
  destruct (rc <? 0).
  - rewrite bind_bind, interp_state_bind, interp_state_trigger. cbn.
    rewrite bind_bind. setoid_rewrite bind_ret_l. cbn.
    setoid_rewrite bind_ret_l. setoid_rewrite interp_state_tau.
    setoid_rewrite tau_eutt. reflexivity.
  - rewrite !bind_ret_l, interp_state_tau, tau_eutt. reflexivity.
Qed.

Lemma observed_overrun h frame pkt r rest ts clk u :
  rd_nbytes r = sizeof_canfd_frame ->
  translate (rd_frame r) (timespec_ns ts) pkt = None ->
  observed (while_true h (frame, pkt)) (mk_env (r :: rest) (ts :: clk) u)
  ≈ Ret (mk_env rest clk u, OutOfBounds).
Proof.
  intros Hn Htr.
  assert (Hn' : (size_t_of (rd_nbytes r) =? sizeof_canfd_frame) = true)
    by (rewrite Hn; reflexivity).
  unfold observed, while_true.
  rewrite unfold_iter. unfold iteration at 1.
  rewrite bind_bind, interp_state_bind, interp_state_trigger. cbn.
  rewrite bind_ret_l. cbn. rewrite Hn'. cbn.
  rewrite bind_bind, interp_state_bind, interp_state_trigger. cbn.
  rewrite bind_ret_l. cbn. rewrite Htr.
  rewrite bind_ret_l, interp_state_ret. reflexivity.
Qed.

(** A computation stuck in a call that never returns stays stuck. *)
Lemma bind_spin {E : Type -> Type} {A B : Type} (k : A -> itree E B) :
  ITree.bind ITree.spin k ≈ ITree.spin.
Proof.
  pcofix CIH. pfold. red. cbn. constructor. right. apply CIH.
Qed.

(** Once the bus has gone quiet the loop sits in [read] for ever. *)
Lemma observed_idle h st clk u :
  observed (while_true h st) (mk_env [] clk u) ≈ ITree.spin.
Proof.
  unfold observed, while_true. destruct st as [frame pkt].
  rewrite unfold_iter. unfold iteration at 1.
  rewrite bind_bind, interp_state_bind, interp_state_trigger. cbn.
  apply bind_spin.
Qed.

(* ================================================================== *)
(** * The translator's contract *)

(** Closes goals about concrete frames and packets by evaluation. *)
Ltac by_evaluation :=
  repeat match goal with
    | |- valid_frame _ => split
    | |- canfd_frame.wf _ => unfold canfd_frame.wf; cbn
    | |- GatewayPacket.wf _ => unfold GatewayPacket.wf; cbn
    | |- _ /\ _ => split
    | |- Forall is_u8 _ => apply Forall_forall; cbn; intros ? ?
    | |- Forall valid_frame _ => cbn; repeat first [apply Forall_nil | apply Forall_cons]
    | H : _ \/ _ |- _ => destruct H
    | H : False |- _ => destruct H
    | |- is_u8 _ => unfold is_u8; subst
    | |- is_u32 _ => unfold is_u32
    | |- is_u64 _ => unfold is_u64
    | |- _ => reflexivity
    | |- _ => lia
    | |- _ => vm_compute; intros; discriminate
    end.

Lemma wf_data_length pkt :
  GatewayPacket.wf pkt -> length (GatewayPacket.data pkt) = 64%nat.
Proof. intros (_ & _ & _ & _ & H & _); exact H. Qed.

Lemma valid_frame_len frame : valid_frame frame -> 0 <= canfd_frame.len frame <= 64.
Proof. intros [(_ & [H _] & _) H']; unfold CANFD_MAX_DLEN in H'; lia. Qed.

Lemma valid_frame_data frame :
  valid_frame frame -> length (canfd_frame.data frame) = 64%nat.
Proof. intros [(_ & _ & _ & H & _) _]; exact H. Qed.

Lemma land_low2_range x : 0 <= Z.land x (Z.lor CANFD_BRS CANFD_ESI) < 4.
Proof.
  change (Z.lor CANFD_BRS CANFD_ESI) with 3.
  pose proof (land_low2_cases x) as H; cbv zeta in H; lia.
Qed.

(** The bytes on the wire: a 14-byte header, then the data array. *)
Lemma wire_header_data h p :
  length (GatewayPacket.data p) = 64%nat ->
  exists hdr, length hdr = 14%nat /\ wire h p = hdr ++ GatewayPacket.data p.
Proof.
  intros Hd. unfold wire. rewrite packet_bytes_layout by exact Hd.
  exists (scalar_bytes (byte_order h) 8 (GatewayPacket.timestamp_ns p)
          ++ scalar_bytes (byte_order h) 4 (GatewayPacket.can_id p)
          ++ scalar_bytes (byte_order h) 1 (GatewayPacket.dlc p)
          ++ scalar_bytes (byte_order h) 1 (GatewayPacket.flags p)).
  split.
  - rewrite !length_app, !scalar_bytes_length. reflexivity.
  - now rewrite <- !app_assoc.
Qed.

(** C1: for every valid frame (length 0 to 64) the packet produced has
    the fixed size of 78 bytes on the wire, made of timestamp_ns
    (8 bytes), can_id (4 bytes), dlc (1 byte), flags (1 byte) and data
    (64 bytes) in this order with no padding byte anywhere, whatever
    the frame and whatever the buffer held before. *)
Theorem packet_size_invariant h frame now_ns pkt :
  valid_frame frame -> GatewayPacket.wf pkt ->
  exists pkt',
    translate frame now_ns pkt = Some pkt'
    /\ PACKET_SIZE = 78
    /\ length (wire h pkt') = Z.to_nat PACKET_SIZE
    /\ wire h pkt' =
         scalar_bytes (byte_order h) 8 (GatewayPacket.timestamp_ns pkt')
         ++ scalar_bytes (byte_order h) 4 (GatewayPacket.can_id pkt')
         ++ [GatewayPacket.dlc pkt']
         ++ [GatewayPacket.flags pkt']
         ++ GatewayPacket.data pkt'
    /\ length (scalar_bytes (byte_order h) 8 (GatewayPacket.timestamp_ns pkt')) = 8%nat
    /\ length (scalar_bytes (byte_order h) 4 (GatewayPacket.can_id pkt')) = 4%nat
    /\ length (GatewayPacket.data pkt') = 64%nat.
Proof.
  intros Hf Hp.
  pose proof (valid_frame_len _ Hf) as Hl.
  pose proof (valid_frame_data _ Hf) as Hs.
  pose proof (padded_payload_length _ Hl Hs) as Hd.
  eexists. split; [apply translate_valid; auto using wf_data_length|].
  cbn [GatewayPacket.timestamp_ns GatewayPacket.can_id GatewayPacket.dlc
       GatewayPacket.flags GatewayPacket.data].
  assert (Hw : forall p, length (GatewayPacket.data p) = 64%nat ->
                         length (wire h p) = 78%nat).
  { intros p Hp64. destruct (wire_header_data h p Hp64) as (hdr & Hh & ->).
    rewrite length_app, Hh, Hp64. reflexivity. }
  split; [reflexivity|]. split; [apply Hw; exact Hd|].
  split; [|auto using scalar_bytes_length].
  unfold wire. rewrite packet_bytes_layout by exact Hd.
    cbn [GatewayPacket.timestamp_ns GatewayPacket.can_id GatewayPacket.dlc
         GatewayPacket.flags GatewayPacket.data].
  rewrite !scalar_bytes_1.
  pose proof (land_low2_range (canfd_frame.flags frame)).
  rewrite !Z.mod_small by lia. reflexivity.
Qed.

Lemma packet_size_invariant_witness :
  valid_frame example_frame /\ GatewayPacket.wf stale_packet /\
  exists pkt',
    translate example_frame 1000000000 stale_packet = Some pkt'
    /\ PACKET_SIZE = 78
    /\ length (wire example_host pkt') = Z.to_nat PACKET_SIZE
    /\ wire example_host pkt' =
         scalar_bytes LittleEndian 8 (GatewayPacket.timestamp_ns pkt')
         ++ scalar_bytes LittleEndian 4 (GatewayPacket.can_id pkt')
         ++ [GatewayPacket.dlc pkt']
         ++ [GatewayPacket.flags pkt']
         ++ GatewayPacket.data pkt'
    /\ length (scalar_bytes LittleEndian 8 (GatewayPacket.timestamp_ns pkt')) = 8%nat
    /\ length (scalar_bytes LittleEndian 4 (GatewayPacket.can_id pkt')) = 4%nat
    /\ length (GatewayPacket.data pkt') = 64%nat.
Proof.
  split; [by_evaluation | split; [by_evaluation|]].
  apply (packet_size_invariant example_host example_frame 1000000000 stale_packet);
    by_evaluation.
Defined.

(** C2: for every frame of length L < 64, bytes L to 63 of the data
    field of the packet are zero after the translation, whatever the
    reused buffer held before; the same holds of the bytes sent. *)
Theorem zero_padding_invariant h frame now_ns pkt :
  valid_frame frame -> GatewayPacket.wf pkt -> canfd_frame.len frame < 64 ->
  exists pkt',
    translate frame now_ns pkt = Some pkt'
    /\ (forall i, canfd_frame.len frame <= i < 64 ->
                  nth_error (GatewayPacket.data pkt') (Z.to_nat i) = Some 0)
    /\ skipn (Z.to_nat (canfd_frame.len frame)) (GatewayPacket.data pkt')
       = repeat 0 (Z.to_nat (64 - canfd_frame.len frame))
    /\ skipn (14 + Z.to_nat (canfd_frame.len frame)) (wire h pkt')
       = repeat 0 (Z.to_nat (64 - canfd_frame.len frame)).
Proof.
  intros Hf Hp _.
  pose proof (valid_frame_len _ Hf) as Hl.
  pose proof (valid_frame_data _ Hf) as Hs.
  pose proof (padded_payload_length _ Hl Hs) as Hd.
  eexists. split; [apply translate_valid; auto using wf_data_length|].
  set (p' := GatewayPacket.mk _ _ _ _ _).
  assert (Hpre : length (firstn (Z.to_nat (canfd_frame.len frame))
                           (canfd_frame.data frame))
                 = Z.to_nat (canfd_frame.len frame))
    by (rewrite length_firstn, Hs; lia).
  assert (Htail : skipn (Z.to_nat (canfd_frame.len frame)) (GatewayPacket.data p')
                  = repeat 0 (Z.to_nat (64 - canfd_frame.len frame))).
  { cbn [p' GatewayPacket.data]. unfold padded_payload.
    rewrite skipn_app, Hpre, Nat.sub_diag, skipn_all2 by lia.
    cbn [skipn app]. f_equal. lia. }
  split; [|split].
  - intros i Hi. cbn [p' GatewayPacket.data]. unfold padded_payload.
    rewrite nth_error_app2 by lia. rewrite Hpre.
    apply nth_error_repeat. lia.
  - exact Htail.
  - destruct (wire_header_data h p' Hd) as (hdr & Hh & ->).
    rewrite skipn_app, Hh, skipn_all2 by lia.
    replace (14 + Z.to_nat (canfd_frame.len frame) - 14)%nat
      with (Z.to_nat (canfd_frame.len frame)) by lia.
    exact Htail.
Qed.

Lemma zero_padding_invariant_witness :
  valid_frame example_frame /\ GatewayPacket.wf stale_packet /\
  canfd_frame.len example_frame < 64 /\
  exists pkt',
    translate example_frame 1000000000 stale_packet = Some pkt'
    /\ (forall i, 3 <= i < 64 ->
                  nth_error (GatewayPacket.data pkt') (Z.to_nat i) = Some 0)
    /\ skipn 3 (GatewayPacket.data pkt') = repeat 0 61
    /\ skipn 17 (wire example_host pkt') = repeat 0 61.
Proof.
  split; [by_evaluation | split; [by_evaluation | split; [by_evaluation|]]].
  apply (zero_padding_invariant example_host example_frame 1000000000 stale_packet);
    by_evaluation.
Defined.

(** C3: for every frame of length L, 0 <= L <= 64, the first L bytes
    of the data field of the packet are, byte for byte, the first L
    bytes of the payload of the frame. *)
Theorem payload_fidelity frame now_ns pkt :
  valid_frame frame -> GatewayPacket.wf pkt ->
  exists pkt',
    translate frame now_ns pkt = Some pkt'
    /\ firstn (Z.to_nat (canfd_frame.len frame)) (GatewayPacket.data pkt')
       = firstn (Z.to_nat (canfd_frame.len frame)) (canfd_frame.data frame)
    /\ (forall i, 0 <= i < canfd_frame.len frame ->
          nth_error (GatewayPacket.data pkt') (Z.to_nat i)
          = nth_error (canfd_frame.data frame) (Z.to_nat i)).
Proof.
  intros Hf Hp.
  pose proof (valid_frame_len _ Hf) as Hl.
  pose proof (valid_frame_data _ Hf) as Hs.
  eexists. split; [apply translate_valid; auto using wf_data_length|].
  cbn [GatewayPacket.data]. unfold padded_payload.
  assert (Hpre : length (firstn (Z.to_nat (canfd_frame.len frame))
                           (canfd_frame.data frame))
                 = Z.to_nat (canfd_frame.len frame))
    by (rewrite length_firstn, Hs; lia).
  split.
  - rewrite firstn_app, Hpre, Nat.sub_diag, firstn_firstn, Nat.min_id.
    cbn [firstn]. apply app_nil_r.
  - intros i Hi. rewrite nth_error_app1 by lia.
    rewrite nth_error_firstn.
    replace (Z.to_nat i <? Z.to_nat (canfd_frame.len frame))%nat with true
      by (symmetry; apply Nat.ltb_lt; lia).
    reflexivity.
Qed.

Lemma payload_fidelity_witness :
  valid_frame example_frame /\ GatewayPacket.wf stale_packet /\
  exists pkt',
    translate example_frame 1000000000 stale_packet = Some pkt'
    /\ firstn 3 (GatewayPacket.data pkt') = [0xAA; 0xBB; 0xCC]
    /\ (forall i, 0 <= i < 3 ->
          nth_error (GatewayPacket.data pkt') (Z.to_nat i)
          = nth_error (canfd_frame.data example_frame) (Z.to_nat i)).
Proof.
  split; [by_evaluation | split; [by_evaluation|]].
  apply (payload_fidelity example_frame 1000000000 stale_packet); by_evaluation.
Defined.

(** C4: for every frame, whatever its flag bits, bit 0 of the flags
    byte of the packet is set iff the frame's flags include BRS, bit 1
    iff they include ESI, and every other bit is zero: BRS alone gives
    0x01, ESI alone 0x02, both 0x03, neither 0x00, and any other
    source flag is dropped without an error. *)
Theorem flag_mapping frame now_ns pkt :
  valid_frame frame -> GatewayPacket.wf pkt ->
  exists pkt',
    translate frame now_ns pkt = Some pkt'
    /\ let brs := negb (Z.land (canfd_frame.flags frame) CANFD_BRS =? 0) in
       let esi := negb (Z.land (canfd_frame.flags frame) CANFD_ESI =? 0) in
       Z.testbit (GatewayPacket.flags pkt') 0 = brs
       /\ Z.testbit (GatewayPacket.flags pkt') 1 = esi
       /\ (forall i, 2 <= i -> Z.testbit (GatewayPacket.flags pkt') i = false)
       /\ GatewayPacket.flags pkt' =
            match brs, esi with
            | true, false => 0x01
            | false, true => 0x02
            | true, true => 0x03
            | false, false => 0x00
            end.
Proof.
  intros Hf Hp.
  eexists. split; [apply translate_valid; auto using wf_data_length|].
  cbn [GatewayPacket.flags]. unfold CANFD_BRS, CANFD_ESI.
  change (Z.lor 1 2) with 3.
  rewrite (land_through_low2 (canfd_frame.flags frame) 1) by reflexivity.
  rewrite (land_through_low2 (canfd_frame.flags frame) 2) by reflexivity.
  destruct (land_low2_cases (canfd_frame.flags frame)) as [H|[H|[H|H]]];
    rewrite H; cbv zeta; (split; [reflexivity|]); (split; [reflexivity|]);
    (split; [|reflexivity]);
    intros i Hi; apply Z.bits_above_log2; cbn; lia.
Qed.

(** BRS together with a flag the gateway does not know (0x04, FDF). *)
Lemma flag_mapping_witness :
  valid_frame (flags_frame 0x05) /\ GatewayPacket.wf stale_packet /\
  exists pkt',
    translate (flags_frame 0x05) 1000000000 stale_packet = Some pkt'
    /\ Z.testbit (GatewayPacket.flags pkt') 0 = true
    /\ Z.testbit (GatewayPacket.flags pkt') 1 = false
    /\ (forall i, 2 <= i -> Z.testbit (GatewayPacket.flags pkt') i = false)
    /\ GatewayPacket.flags pkt' = 0x01.
Proof.
  split; [by_evaluation | split; [by_evaluation|]].
  apply (flag_mapping (flags_frame 0x05) 1000000000 stale_packet); by_evaluation.
Defined.

(** C5: for every frame, whatever 32-bit value its identifier holds
    (extended-ID and remote-request marker bits included), the can_id
    of the packet is that value, bit for bit: nothing is filtered or
    masked. *)
Theorem identifier_passthrough frame now_ns pkt :
  valid_frame frame -> GatewayPacket.wf pkt ->
  exists pkt',
    translate frame now_ns pkt = Some pkt'
    /\ GatewayPacket.can_id pkt' = canfd_frame.can_id frame
    /\ (forall i, Z.testbit (GatewayPacket.can_id pkt') i
                  = Z.testbit (canfd_frame.can_id frame) i).
Proof.
  intros Hf Hp.
  eexists. split; [apply translate_valid; auto using wf_data_length|].
  cbn [GatewayPacket.can_id]. split; reflexivity.
Qed.

Lemma identifier_passthrough_witness :
  valid_frame extended_rtr_frame /\ GatewayPacket.wf stale_packet /\
  exists pkt',
    translate extended_rtr_frame 1000000000 stale_packet = Some pkt'
    /\ GatewayPacket.can_id pkt' = 0xDABCDEF0
    /\ (forall i, Z.testbit (GatewayPacket.can_id pkt') i
                  = Z.testbit 0xDABCDEF0 i).
Proof.
  split; [by_evaluation | split; [by_evaluation|]].
  apply (identifier_passthrough extended_rtr_frame 1000000000 stale_packet);
    by_evaluation.
Defined.

(** C6: the dlc of the packet is the length of the frame, verbatim. A
    frame of length 0 goes through without any payload copy: the
    packet has dlc 0 and 64 zero bytes of data, and the loop sends it
    like any other. *)
Theorem dlc_verbatim_empty_frame_forwarded h frame0 pkt r rest ts clk rc u :
  valid_frame (rd_frame r) -> GatewayPacket.wf pkt ->
  rd_nbytes r = sizeof_canfd_frame ->
  exists pkt',
    translate (rd_frame r) (timespec_ns ts) pkt = Some pkt'
    /\ GatewayPacket.dlc pkt' = canfd_frame.len (rd_frame r)
    /\ (canfd_frame.len (rd_frame r) = 0 ->
        (forall p, copy_data (rd_frame r) p
                   = option_map (GatewayPacket.set_data p)
                       (memset (GatewayPacket.data p) 0 64))
        /\ GatewayPacket.dlc pkt' = 0
        /\ GatewayPacket.data pkt' = repeat 0 64)
    /\ observed (while_true h (frame0, pkt))
         (mk_env (r :: rest) (ts :: clk) (rc :: u))
       ≈ (ITree.trigger (Datagram (wire h pkt') rc) ;;
          send_diagnostic rc ;;
          observed (while_true h (rd_frame r, pkt')) (mk_env rest clk u)).
Proof.
  intros Hf Hp Hn.
  pose proof (translate_valid (rd_frame r) (timespec_ns ts) pkt Hf
                (wf_data_length _ Hp)) as Htr.
  eexists. split; [exact Htr|].
  split; [reflexivity|]. split.
  - intros H0. split; [|split].
    + intros p. unfold copy_data. rewrite H0. cbn.
      destruct (memset (GatewayPacket.data p) 0 64); reflexivity.
    + cbn. exact H0.
    + cbn. unfold padded_payload. rewrite H0. reflexivity.
  - apply observed_full_read; assumption.
Qed.

Lemma dlc_verbatim_empty_frame_forwarded_witness :
  valid_frame (rd_frame empty_frame_read) /\ GatewayPacket.wf stale_packet /\
  rd_nbytes empty_frame_read = sizeof_canfd_frame /\
  exists pkt',
    translate empty_frame (timespec_ns one_second) stale_packet = Some pkt'
    /\ GatewayPacket.dlc pkt' = 0
    /\ (canfd_frame.len empty_frame = 0 ->
        (forall p, copy_data empty_frame p
                   = option_map (GatewayPacket.set_data p)
                       (memset (GatewayPacket.data p) 0 64))
        /\ GatewayPacket.dlc pkt' = 0
        /\ GatewayPacket.data pkt' = repeat 0 64)
    /\ observed (while_true example_host (example_frame, stale_packet))
         (mk_env [empty_frame_read] [one_second] [78])
       ≈ (ITree.trigger (Datagram (wire example_host pkt') 78) ;;
          send_diagnostic 78 ;;
          observed (while_true example_host (empty_frame, pkt')) (mk_env [] [] [])).
Proof.
  split; [by_evaluation | split; [by_evaluation | split; [reflexivity|]]].
  apply (dlc_verbatim_empty_frame_forwarded example_host example_frame
           stale_packet empty_frame_read [] one_second [] 78 []);
    by_evaluation.
Defined.

(** C10: the translator has no bounds check of its own. For every frame
    of length at most 64 the payload copy stays within the 64 bytes of
    the data array; a longer length, which only the bus source keeps
    from arriving, takes the copy past the end of the array. *)
Theorem payload_copy_bounds frame now_ns pkt :
  canfd_frame.wf frame -> GatewayPacket.wf pkt ->
  (canfd_frame.len frame <= 64 ->
     exists pkt',
       translate frame now_ns pkt = Some pkt'
       /\ length (GatewayPacket.data pkt') = 64%nat)
  /\ (64 < canfd_frame.len frame -> translate frame now_ns pkt = None).
Proof.
  intros Hw Hp. split; intros Hl.
  - assert (Hf : valid_frame frame) by (split; [exact Hw | exact Hl]).
    eexists. split; [apply translate_valid; auto using wf_data_length|].
    cbn [GatewayPacket.data].
    apply padded_payload_length;
      [apply valid_frame_len | apply valid_frame_data]; exact Hf.
  - unfold translate. apply copy_data_overrun; [|exact Hl].
    destruct (copy_metadata_fields frame
                (GatewayPacket.set_timestamp_ns pkt now_ns)) as (_ & _ & _ & ->).
    cbn. apply wf_data_length, Hp.
Qed.

Lemma payload_copy_bounds_witness :
  canfd_frame.wf overlong_frame /\ GatewayPacket.wf stale_packet /\
  (canfd_frame.len overlong_frame <= 64 ->
     exists pkt',
       translate overlong_frame 1000000000 stale_packet = Some pkt'
       /\ length (GatewayPacket.data pkt') = 64%nat)
  /\ (64 < canfd_frame.len overlong_frame ->
      translate overlong_frame 1000000000 stale_packet = None).
Proof.
  split; [by_evaluation | split; [by_evaluation|]].
  apply (payload_copy_bounds overlong_frame 1000000000 stale_packet);
    by_evaluation.
Defined.

(* ================================================================== *)
(** * Consecutive translations *)

Lemma translate_seq_valid inputs : forall pkt,
  Forall valid_frame (List.map fst inputs) -> length (GatewayPacket.data pkt) = 64%nat ->
  exists outs,
    translate_seq pkt inputs = Some outs
    /\ List.map GatewayPacket.timestamp_ns outs = List.map snd inputs.
Proof.
  induction inputs as [|[frame now_ns] rest IH]; intros pkt Hall Hd.
  - exists []. split; reflexivity.
  - cbn [List.map fst] in Hall. inversion Hall as [|? ? Hf Hrest]; subst.
    cbn [translate_seq]. rewrite (translate_valid frame now_ns pkt Hf Hd).
    set (pkt' := GatewayPacket.mk _ _ _ _ _).
    destruct (IH pkt' Hrest) as (outs & -> & Hts).
    { apply padded_payload_length;
        [apply valid_frame_len | apply valid_frame_data]; exact Hf. }
    exists (pkt' :: outs). split; [reflexivity|].
    cbn [List.map snd]. now rewrite Hts.
Qed.

(** C9: across N frames translated one after the other with timestamps
    that do not decrease, the timestamp_ns of the N packets do not
    decrease either: each packet carries the timestamp it was given. *)
Theorem monotonic_timestamp_ordering inputs pkt :
  Forall valid_frame (List.map fst inputs) -> GatewayPacket.wf pkt ->
  Sorted Z.le (List.map snd inputs) ->
  exists outs,
    translate_seq pkt inputs = Some outs
    /\ length outs = length inputs
    /\ List.map GatewayPacket.timestamp_ns outs = List.map snd inputs
    /\ Sorted Z.le (List.map GatewayPacket.timestamp_ns outs).
Proof.
  intros Hall Hp Hsorted.
  destruct (translate_seq_valid inputs pkt Hall (wf_data_length _ Hp))
    as (outs & Hseq & Hts).
  exists outs. split; [exact Hseq|]. split; [|split].
  - rewrite <- (length_map GatewayPacket.timestamp_ns outs), Hts. apply length_map.
  - exact Hts.
  - rewrite Hts. exact Hsorted.
Qed.

Lemma monotonic_timestamp_ordering_witness :
  Forall valid_frame (List.map fst three_inputs) /\ GatewayPacket.wf stale_packet /\
  Sorted Z.le (List.map snd three_inputs) /\
  exists outs,
    translate_seq stale_packet three_inputs = Some outs
    /\ length outs = 3%nat
    /\ List.map GatewayPacket.timestamp_ns outs = [1000000000; 1000000000; 1000250000]
    /\ Sorted Z.le (List.map GatewayPacket.timestamp_ns outs).
Proof.
  assert (Hs : Sorted Z.le (List.map snd three_inputs))
    by (repeat constructor; cbn; lia).
  split; [by_evaluation | split; [by_evaluation | split; [exact Hs|]]].
  apply (monotonic_timestamp_ordering three_inputs stale_packet);
    [by_evaluation | by_evaluation | exact Hs].
Defined.

(* ================================================================== *)
(** * The forward loop *)

Lemma last_cons_default {A : Type} (l : list A) : forall a d : A,
  last (a :: l) d = last l a.
Proof.
  induction l as [|b l IH]; intros a d; [reflexivity|].
  change (last (a :: b :: l) d) with (last (b :: l) d).
  now rewrite !IH.
Qed.

Lemma observed_failed_reads h failed : forall frame pkt rest clk u,
  Forall failed_read failed ->
  observed (while_true h (frame, pkt)) (mk_env (failed ++ rest) clk u)
  ≈ (read_diagnostics failed ;;
     observed (while_true h (frame_after frame failed, pkt)) (mk_env rest clk u)).
Proof.
  induction failed as [|r failed IH]; intros frame pkt rest clk u Hall.
  - cbn. rewrite bind_ret_l. reflexivity.
  - inversion Hall as [|? ? Hr Hrest]; subst.
    cbn [app read_diagnostics].
    rewrite observed_failed_read by exact Hr.
    rewrite bind_bind. apply eutt_eq_bind; intros [].
    apply IH. exact Hrest.
Qed.

(** A run of whole valid frames is translated in sequence into the
    reused buffer and each packet is handed to [sendto] once. *)
Lemma observed_translate_seq h reads : forall frame pkt tss rcs outs rest clk u,
  Forall whole_read reads ->
  length tss = length reads -> length rcs = length reads ->
  translate_seq pkt (combine (List.map rd_frame reads) (List.map timespec_ns tss))
    = Some outs ->
  observed (while_true h (frame, pkt))
    (mk_env (reads ++ rest) (tss ++ clk) (rcs ++ u))
  ≈ (transmissions h (combine outs rcs) ;;
     observed (while_true h (frame_after frame reads, last outs pkt))
       (mk_env rest clk u)).
Proof.
  induction reads as [|r reads IH];
    intros frame pkt tss rcs outs rest clk u Hall Hts Hrcs Hseq.
  - destruct tss; [|discriminate]. destruct rcs; [|discriminate].
    cbn in Hseq. injection Hseq as <-. cbn. rewrite bind_ret_l. reflexivity.
  - destruct tss as [|ts tss]; [discriminate|].
    destruct rcs as [|rc rcs]; [discriminate|].
    inversion Hall as [|? ? Hr Hrest]; subst.
    cbn [List.map combine translate_seq] in Hseq.
    destruct (translate (rd_frame r) (timespec_ns ts) pkt) as [pkt'|] eqn:Htr;
      [|discriminate].
    destruct (translate_seq pkt' _) as [outs'|] eqn:Hseq'; [|discriminate].
    cbn in Hseq. injection Hseq as <-.
    cbn [app]. rewrite (observed_full_read _ _ _ _ _ _ _ _ _ _ Hr Htr).
    cbn [combine transmissions]. rewrite !bind_bind.
    apply eutt_eq_bind; intros []. rewrite bind_bind.
    apply eutt_eq_bind; intros [].
    rewrite (IH (rd_frame r) pkt' tss rcs outs' rest clk u Hrest)
      by (cbn in Hts, Hrcs; auto; congruence).
    rewrite last_cons_default. reflexivity.
Qed.

(** Short and empty reads, and reads interrupted by a signal, leave
    no trace at all. *)
Lemma read_diagnostics_silent reads :
  Forall (fun r => 0 <= rd_nbytes r \/ rd_errno r = EINTR) reads ->
  read_diagnostics reads ≈ Ret tt.
Proof.
  induction 1 as [|r reads Hr _ IH]; [reflexivity|].
  cbn [read_diagnostics]. unfold read_diagnostic.
  replace ((rd_nbytes r <? 0) && negb (rd_errno r =? EINTR)) with false.
  - rewrite bind_ret_l. exact IH.
  - symmetry. apply andb_false_iff. destruct Hr as [Hr|Hr].
    + left. apply Z.ltb_ge. exact Hr.
    + right. rewrite Hr. reflexivity.
Qed.

Lemma observed_run_gateway h frame pkt s :
  observed (run_gateway h frame pkt) s
  ≈ (ITree.trigger (Stdout starting_message) ;;
     observed (while_true h (frame, pkt)) s).
Proof.
  unfold observed, run_gateway.
  rewrite interp_state_bind, interp_state_trigger. cbn.
  rewrite bind_bind. apply eutt_eq_bind; intros [].
  rewrite bind_ret_l. reflexivity.
Qed.

(** C7: a read that is short, empty or failed is dropped and the loop
    reads again: nothing is sent for it, the packet buffer is left as
    it was, and the loop goes on with whatever the bus delivers next.
    After any run of such reads (three, say) followed by one whole
    valid frame and then silence, the gateway has sent exactly one
    datagram, the translation of that frame, however many more clock
    readings and [sendto] answers stand ready. *)
Theorem loop_resilience h frame pkt failed :
  Forall failed_read failed ->
  (forall rest clk u,
     observed (while_true h (frame, pkt)) (mk_env (failed ++ rest) clk u)
     ≈ (read_diagnostics failed ;;
        observed (while_true h (frame_after frame failed, pkt))
          (mk_env rest clk u)))
  /\ (forall good ts clk rc u,
        rd_nbytes good = sizeof_canfd_frame ->
        valid_frame (rd_frame good) -> GatewayPacket.wf pkt ->
        exists pkt',
          translate (rd_frame good) (timespec_ns ts) pkt = Some pkt'
          /\ observed (run_gateway h frame pkt)
               (mk_env (failed ++ [good]) (ts :: clk) (rc :: u))
             ≈ (ITree.trigger (Stdout starting_message) ;;
                read_diagnostics failed ;;
                ITree.trigger (Datagram (wire h pkt') rc) ;;
                send_diagnostic rc ;;
                ITree.spin)).
Proof.
  intros Hall. split.
  - intros rest clk u. apply observed_failed_reads. exact Hall.
  - intros good ts clk rc u Hn Hf Hp.
    pose proof (translate_valid (rd_frame good) (timespec_ns ts) pkt Hf
                  (wf_data_length _ Hp)) as Htr.
    eexists. split; [exact Htr|].
    rewrite observed_run_gateway.
    apply eutt_eq_bind; intros [].
    rewrite (observed_failed_reads h failed frame pkt [good] (ts :: clk) (rc :: u)
               Hall).
    apply eutt_eq_bind; intros [].
    rewrite (observed_full_read h _ pkt _ good [] ts clk rc u Hn Htr).
    apply eutt_eq_bind; intros [].
    apply eutt_eq_bind; intros [].
    apply observed_idle.
Qed.

Lemma loop_resilience_witness :
  Forall failed_read three_failed_reads /\
  rd_nbytes example_read = sizeof_canfd_frame /\
  valid_frame (rd_frame example_read) /\ GatewayPacket.wf stale_packet /\
  exists pkt',
    translate example_frame (timespec_ns one_second) stale_packet = Some pkt'
    /\ observed (run_gateway example_host empty_frame stale_packet)
         (mk_env (three_failed_reads ++ [example_read])
            [one_second; one_second; one_second] [78; 78; -1])
       ≈ (ITree.trigger (Stdout starting_message) ;;
          read_diagnostics three_failed_reads ;;
          ITree.trigger (Datagram (wire example_host pkt') 78) ;;
          send_diagnostic 78 ;;
          ITree.spin).
Proof.
  assert (H : Forall failed_read three_failed_reads)
    by (repeat apply Forall_cons; try apply Forall_nil;
        unfold failed_read, sizeof_canfd_frame, size_t_of, u64; cbn; lia).
  split; [exact H | split; [reflexivity | split; [by_evaluation | split; [by_evaluation|]]]].
  apply (proj2 (loop_resilience example_host empty_frame stale_packet
                  three_failed_reads H)
           example_read one_second [one_second; one_second] 78 [78; -1]);
    by_evaluation.
Defined.

(** C8: when [sendto] reports a failure the loop writes its diagnostic
    and goes on with the next read. The packet went to [sendto] once
    and is not offered again, nothing is waited for, and the loop does
    not end. *)
Theorem send_failure_contained h frame0 pkt r rest ts clk rc u :
  rd_nbytes r = sizeof_canfd_frame -> valid_frame (rd_frame r) ->
  GatewayPacket.wf pkt -> rc < 0 ->
  exists pkt',
    translate (rd_frame r) (timespec_ns ts) pkt = Some pkt'
    /\ observed (while_true h (frame0, pkt))
         (mk_env (r :: rest) (ts :: clk) (rc :: u))
       ≈ (ITree.trigger (Datagram (wire h pkt') rc) ;;
          ITree.trigger (Stderr "sendto UDP") ;;
          observed (while_true h (rd_frame r, pkt')) (mk_env rest clk u))
    /\ observed (while_true h (frame0, pkt))
         (mk_env [r] (ts :: clk) (rc :: u))
       ≈ (ITree.trigger (Datagram (wire h pkt') rc) ;;
          ITree.trigger (Stderr "sendto UDP") ;;
          ITree.spin).
Proof.
  intros Hn Hf Hp Hrc.
  pose proof (translate_valid (rd_frame r) (timespec_ns ts) pkt Hf
                (wf_data_length _ Hp)) as Htr.
  assert (Hd : send_diagnostic rc = ITree.trigger (Stderr "sendto UDP")).
  { unfold send_diagnostic.
    now replace (rc <? 0) with true by (symmetry; apply Z.ltb_lt; exact Hrc). }
  eexists. split; [exact Htr|]. split.
  - rewrite (observed_full_read h _ pkt _ r rest ts clk rc u Hn Htr), Hd.
    reflexivity.
  - rewrite (observed_full_read h _ pkt _ r [] ts clk rc u Hn Htr), Hd.
    apply eutt_eq_bind; intros [].
    apply eutt_eq_bind; intros [].
    apply observed_idle.
Qed.

Lemma send_failure_contained_witness :
  rd_nbytes example_read = sizeof_canfd_frame /\
  valid_frame (rd_frame example_read) /\ GatewayPacket.wf stale_packet /\
  -1 < 0 /\
  exists pkt',
    translate example_frame (timespec_ns one_second) stale_packet = Some pkt'
    /\ observed (while_true example_host (empty_frame, stale_packet))
         (mk_env [example_read; empty_frame_read] [one_second; one_second] [-1; 78])
       ≈ (ITree.trigger (Datagram (wire example_host pkt') (-1)) ;;
          ITree.trigger (Stderr "sendto UDP") ;;
          observed (while_true example_host (example_frame, pkt'))
            (mk_env [empty_frame_read] [one_second] [78]))
    /\ observed (while_true example_host (empty_frame, stale_packet))
         (mk_env [example_read] [one_second; one_second] [-1; 78])
       ≈ (ITree.trigger (Datagram (wire example_host pkt') (-1)) ;;
          ITree.trigger (Stderr "sendto UDP") ;;
          ITree.spin).
Proof.
  split; [reflexivity | split; [by_evaluation | split; [by_evaluation | split; [lia|]]]].
  apply (send_failure_contained example_host empty_frame stale_packet
           example_read [empty_frame_read] one_second [one_second] (-1) [78]);
    by_evaluation.
Defined.

(* ================================================================== *)
(** * Supporting facts *)

(** X20: For a return value of [read] the unsigned comparison of the loop
    decides exactly whether 72 bytes arrived. *)
Lemma failed_read_iff r :
  - 2 ^ 63 <= rd_nbytes r < 2 ^ 63 ->
  failed_read r <-> rd_nbytes r <> sizeof_canfd_frame.
Proof.
  intros Hr. unfold failed_read, size_t_of, u64, sizeof_canfd_frame.
  destruct (Z_lt_dec (rd_nbytes r) 0) as [Hneg|Hpos].
  - replace (rd_nbytes r) with (rd_nbytes r + 2 ^ 64 + (-1) * 2 ^ 64) at 1 by lia.
    rewrite Z.mod_add by lia. rewrite Z.mod_small by lia. lia.
  - rewrite Z.mod_small by lia. reflexivity.
Qed.

(** The clock reading in nanoseconds, as long as it fits 64 bits. *)
Lemma timespec_ns_exact ts :
  0 <= tv_sec ts -> 0 <= tv_nsec ts ->
  tv_sec ts * 1000000000 + tv_nsec ts < 2 ^ 64 ->
  timespec_ns ts = tv_sec ts * 1000000000 + tv_nsec ts.
Proof.
  intros Hs Hn Hfit. unfold timespec_ns, u64.
  rewrite (Z.mod_small (tv_sec ts)) by lia.
  rewrite (Z.mod_small (tv_nsec ts)) by lia.
  rewrite (Z.mod_small (tv_sec ts * 1000000000)) by lia.
  apply Z.mod_small. lia.
Qed.

(** X7: Readings of a monotonic clock in the order they were taken give
    timestamps in the same order. *)
Lemma timespec_ns_monotone t1 t2 :
  0 <= tv_sec t1 -> 0 <= tv_nsec t1 < 1000000000 ->
  0 <= tv_nsec t2 < 1000000000 ->
  tv_sec t2 * 1000000000 + tv_nsec t2 < 2 ^ 64 ->
  tv_sec t1 < tv_sec t2 \/ (tv_sec t1 = tv_sec t2 /\ tv_nsec t1 <= tv_nsec t2) ->
  timespec_ns t1 <= timespec_ns t2.
Proof.
  intros Hs1 Hn1 Hn2 Hfit Hle.
  rewrite !timespec_ns_exact by lia. lia.
Qed.

(** X9: Over a run of whole valid frames the loop sends one packet per
    frame, in the order the frames were read: the packets are the
    translations of the frames, one after the other into the reused
    buffer, each with the clock reading taken for it, and each goes to
    [sendto] once. *)
Lemma forward_loop_timestamps h reads tss rcs frame pkt rest clk u :
  Forall whole_read reads -> Forall valid_frame (List.map rd_frame reads) ->
  length tss = length reads -> length rcs = length reads ->
  GatewayPacket.wf pkt ->
  exists outs,
    translate_seq pkt
      (combine (List.map rd_frame reads) (List.map timespec_ns tss)) = Some outs
    /\ length outs = length reads
    /\ List.map GatewayPacket.timestamp_ns outs = List.map timespec_ns tss
    /\ observed (while_true h (frame, pkt))
         (mk_env (reads ++ rest) (tss ++ clk) (rcs ++ u))
       ≈ (transmissions h (combine outs rcs) ;;
          observed (while_true h (frame_after frame reads, last outs pkt))
            (mk_env rest clk u)).
Proof.
  intros Hwhole Hvalid Hts Hrcs Hp.
  set (inputs := combine (List.map rd_frame reads) (List.map timespec_ns tss)).
  assert (Hfst : List.map fst inputs = List.map rd_frame reads).
  { unfold inputs. clear -Hts. revert tss Hts.
    induction reads as [|r reads IH]; intros [|ts tss] Hts;
      try discriminate; [reflexivity|].
    cbn. f_equal. apply IH. now injection Hts. }
  assert (Hsnd : List.map snd inputs = List.map timespec_ns tss).
  { unfold inputs. clear -Hts. revert tss Hts.
    induction reads as [|r reads IH]; intros [|ts tss] Hts;
      try discriminate; [reflexivity|].
    cbn. f_equal. apply IH. now injection Hts. }
  destruct (translate_seq_valid inputs pkt) as (outs & Hseq & Hout).
  { rewrite Hfst. exact Hvalid. }
  { apply wf_data_length, Hp. }
  exists outs. split; [exact Hseq|]. split; [|split].
  - rewrite <- (length_map GatewayPacket.timestamp_ns outs), Hout, Hsnd.
    rewrite length_map. exact Hts.
  - now rewrite Hout.
  - apply observed_translate_seq; assumption.
Qed.

(** The example of the specification, evaluated. *)
Example example_translation :
  translate example_frame 1000000000 stale_packet
  = Some (GatewayPacket.mk 1000000000 0x123 3 0x01
            ([0xAA; 0xBB; 0xCC] ++ repeat 0 61)).
Proof. reflexivity. Qed.

Example example_wire_little_endian :
  wire example_host (GatewayPacket.mk 1000000000 0x123 3 0x01
                       ([0xAA; 0xBB; 0xCC] ++ repeat 0 61))
  = [0x00; 0xCA; 0x9A; 0x3B; 0; 0; 0; 0] ++ [0x23; 0x01; 0; 0] ++ [3] ++ [1]
    ++ [0xAA; 0xBB; 0xCC] ++ repeat 0 61.
Proof. reflexivity. Qed.

Example overlong_frame_overruns :
  translate overlong_frame 1000000000 stale_packet = None.
Proof. reflexivity. Qed.

(** With a length byte beyond 64 the loop runs into the overrun as soon
    as the frame is read. *)
Example overlong_frame_in_the_loop :
  observed (while_true example_host (example_frame, stale_packet))
    (mk_env [mk_read 72 0 overlong_frame] [one_second] [78])
  ≈ Ret (mk_env [] [] [78], OutOfBounds).
Proof. apply observed_overrun; reflexivity. Qed.

(* ================================================================== *)
(** * Further properties of the translator and the loop *)

(** The translation does not read the packet buffer: with a data array
    of the declared size, what it held before makes no difference,
    whatever the frame. *)
Lemma translate_ignores_buffer frame now_ns p1 p2 :
  length (GatewayPacket.data p1) = 64%nat ->
  length (GatewayPacket.data p2) = 64%nat ->
  translate frame now_ns p1 = translate frame now_ns p2.
Proof.
  intros H1 H2. unfold translate, copy_data.
  destruct (copy_metadata_fields frame (GatewayPacket.set_timestamp_ns p1 now_ns))
    as (Ht1 & Hi1 & Hl1 & Hd1).
  destruct (copy_metadata_fields frame (GatewayPacket.set_timestamp_ns p2 now_ns))
    as (Ht2 & Hi2 & Hl2 & Hd2).
  rewrite Hd1, Hd2. cbn [GatewayPacket.set_timestamp_ns GatewayPacket.data].
  rewrite (memset_whole _ _ H1), (memset_whole _ _ H2).
  assert (Hset : forall d,
    GatewayPacket.set_data
      (copy_metadata frame (GatewayPacket.set_timestamp_ns p1 now_ns)) d
    = GatewayPacket.set_data
        (copy_metadata frame (GatewayPacket.set_timestamp_ns p2 now_ns)) d).
  { intros d. unfold GatewayPacket.set_data.
    rewrite Ht1, Ht2, Hi1, Hi2, Hl1, Hl2, !copy_metadata_flags. reflexivity. }
  destruct (canfd_frame.len frame >? 0); [|now rewrite Hset].
  destruct (memcpy _ _ _); [now rewrite Hset | reflexivity].
Qed.

(** X1: Every member of the packet is rewritten on each pass: two
    translations of the same frame with the same timestamp agree,
    whatever the two buffers held. *)
Theorem packet_fully_overwritten frame now_ns p1 p2 :
  GatewayPacket.wf p1 -> GatewayPacket.wf p2 ->
  translate frame now_ns p1 = translate frame now_ns p2.
Proof.
  intros H1 H2. apply translate_ignores_buffer; apply wf_data_length; assumption.
Qed.

Lemma packet_fully_overwritten_witness :
  GatewayPacket.wf stale_packet /\
  GatewayPacket.wf (GatewayPacket.mk 0 0 0 0 (repeat 0x11 64)) /\
  translate overlong_frame 5 stale_packet
  = translate overlong_frame 5 (GatewayPacket.mk 0 0 0 0 (repeat 0x11 64)).
Proof.
  split; [by_evaluation | split; [by_evaluation|]].
  apply (packet_fully_overwritten overlong_frame 5 stale_packet
           (GatewayPacket.mk 0 0 0 0 (repeat 0x11 64))); by_evaluation.
Defined.

(** X2: A packet made from a valid frame and a 64-bit timestamp has every
    member within the range of its C type. *)
Theorem translate_well_formed frame now_ns pkt :
  valid_frame frame -> GatewayPacket.wf pkt -> is_u64 now_ns ->
  exists pkt', translate frame now_ns pkt = Some pkt' /\ GatewayPacket.wf pkt'.
Proof.
  intros Hf Hp Ht.
  pose proof (valid_frame_len _ Hf) as Hl.
  pose proof (valid_frame_data _ Hf) as Hs.
  eexists. split; [apply translate_valid; auto using wf_data_length|].
  destruct Hf as [(Hid & Hlen & Hfl & _ & Hbytes) _].
  pose proof (land_low2_range (canfd_frame.flags frame)) as Hr.
  change (Z.lor CANFD_BRS CANFD_ESI) with 3 in *.
  unfold GatewayPacket.wf. cbn.
  split; [exact Ht|]. split; [exact Hid|]. split; [exact Hlen|].
  split; [unfold is_u8; lia|].
  split; [apply padded_payload_length; assumption|].
  unfold padded_payload. apply Forall_app. split.
  - rewrite <- (firstn_skipn (Z.to_nat (canfd_frame.len frame))
                  (canfd_frame.data frame)) in Hbytes.
    apply Forall_app in Hbytes. apply Hbytes.
  - apply Forall_forall. intros x Hx. apply repeat_spec in Hx. subst.
    unfold is_u8. lia.
Qed.

Lemma translate_well_formed_witness :
  valid_frame example_frame /\ GatewayPacket.wf stale_packet /\
  is_u64 1000000000 /\
  exists pkt',
    translate example_frame 1000000000 stale_packet = Some pkt'
    /\ GatewayPacket.wf pkt'.
Proof.
  split; [by_evaluation | split; [by_evaluation | split; [by_evaluation|]]].
  apply (translate_well_formed example_frame 1000000000 stale_packet);
    by_evaluation.
Defined.

(** One pass of the loop, whatever the scripts hold. *)
Lemma observed_step h frame pkt reads clk u :
  observed (while_true h (frame, pkt)) (mk_env reads clk u)
  ≈ match reads with
    | [] => ITree.spin
    | r :: rest =>
        if size_t_of (rd_nbytes r) =? sizeof_canfd_frame then
          match clk with
          | [] => ITree.spin
          | ts :: clk' =>
              match translate (rd_frame r) (timespec_ns ts) pkt with
              | None => Ret (mk_env rest clk' u, OutOfBounds)
              | Some pkt' =>
                  match u with
                  | [] => ITree.spin
                  | rc :: u' =>
                      ITree.trigger (Datagram (wire h pkt') rc) ;;
                      send_diagnostic rc ;;
                      observed (while_true h (rd_frame r, pkt'))
                        (mk_env rest clk' u')
                  end
              end
          end
        else
          read_diagnostic r ;;
          observed (while_true h (rd_frame r, pkt)) (mk_env rest clk u)
    end.
Proof.
  destruct reads as [|r rest]; [apply observed_idle|].
  destruct (size_t_of (rd_nbytes r) =? sizeof_canfd_frame) eqn:Hn.
  - unfold observed, while_true.
    rewrite unfold_iter. unfold iteration at 1.
    rewrite bind_bind, interp_state_bind, interp_state_trigger. cbn.
    rewrite bind_ret_l. cbn. rewrite Hn. cbn.
    rewrite bind_bind, interp_state_bind, interp_state_trigger. cbn.
    destruct clk as [|ts clk']; [apply bind_spin|].
    rewrite bind_ret_l. cbn.
    destruct (translate (rd_frame r) (timespec_ns ts) pkt) as [pkt'|].
    + rewrite !bind_bind, interp_state_bind, interp_state_trigger. cbn.
      destruct u as [|rc u']; [apply bind_spin|].
      rewrite bind_bind. setoid_rewrite bind_ret_l. cbn.
      apply eutt_eq_bind; intros [].
      unfold send_diagnostic. destruct (rc <? 0).
      * rewrite bind_bind, interp_state_bind, interp_state_trigger. cbn.
        rewrite bind_bind. setoid_rewrite bind_ret_l. cbn.
        setoid_rewrite bind_ret_l. setoid_rewrite interp_state_tau.
        setoid_rewrite tau_eutt. reflexivity.
      * rewrite !bind_ret_l, interp_state_tau, tau_eutt. reflexivity.
    + rewrite bind_ret_l, interp_state_ret. reflexivity.
  - apply observed_failed_read. apply Z.eqb_neq. exact Hn.
Qed.

(** X3: Until the first whole frame arrives the loop only ever replaces
    the frame buffer, and from then on both locals hold what the loop
    itself wrote: what the two uninitialised locals of [run_gateway]
    held at the start shows in nothing the gateway prints or sends,
    whatever the bus, the clock and the socket do. *)
Theorem uninitialised_locals_never_observed h s f1 f2 p1 p2 :
  GatewayPacket.wf p1 -> GatewayPacket.wf p2 ->
  observed (run_gateway h f1 p1) s ≈ observed (run_gateway h f2 p2) s.
Proof.
  intros Hp1 Hp2. apply wf_data_length in Hp1, Hp2.
  rewrite !observed_run_gateway. apply eutt_eq_bind; intros [].
  destruct s as [reads clk u].
  revert f1 f2 p1 p2 clk u Hp1 Hp2.
  induction reads as [|r rest IH]; intros f1 f2 p1 p2 clk u Hp1 Hp2;
    rewrite (observed_step h f1 p1), (observed_step h f2 p2); [reflexivity|].
  destruct (size_t_of (rd_nbytes r) =? sizeof_canfd_frame).
  - destruct clk as [|ts clk']; [reflexivity|].
    rewrite (translate_ignores_buffer _ _ p1 p2 Hp1 Hp2). reflexivity.
  - apply eutt_eq_bind; intros []. apply IH; assumption.
Qed.

Lemma uninitialised_locals_never_observed_witness :
  GatewayPacket.wf stale_packet /\ GatewayPacket.wf zeroed_packet /\
  observed (run_gateway example_host example_frame stale_packet)
    (mk_env (three_failed_reads ++ [example_read]) [one_second] [78])
  ≈ observed (run_gateway example_host overlong_frame zeroed_packet)
      (mk_env (three_failed_reads ++ [example_read]) [one_second] [78]).
Proof.
  split; [by_evaluation | split; [by_evaluation|]].
  apply (uninitialised_locals_never_observed example_host
           (mk_env (three_failed_reads ++ [example_read]) [one_second] [78])
           example_frame overlong_frame stale_packet zeroed_packet);
    by_evaluation.
Defined.

(** X4: Of the reads that do not deliver a whole frame, only an error
    return other than EINTR is reported, with one line; a short or
    empty read and an interrupted one leave no trace at all. *)
Theorem read_failure_reporting h frame pkt r rest clk u :
  failed_read r ->
  (rd_nbytes r < 0 /\ rd_errno r <> EINTR ->
   observed (while_true h (frame, pkt)) (mk_env (r :: rest) clk u)
   ≈ (ITree.trigger (Stderr "read CAN") ;;
      observed (while_true h (rd_frame r, pkt)) (mk_env rest clk u)))
  /\ (0 <= rd_nbytes r \/ rd_errno r = EINTR ->
      observed (while_true h (frame, pkt)) (mk_env (r :: rest) clk u)
      ≈ observed (while_true h (rd_frame r, pkt)) (mk_env rest clk u)).
Proof.
  intros Hf. split; intros Hcase;
    rewrite (observed_failed_read h frame pkt r rest clk u Hf);
    unfold read_diagnostic.
  - destruct Hcase as [Hneg Herr].
    replace (rd_nbytes r <? 0) with true by (symmetry; apply Z.ltb_lt; exact Hneg).
    replace (rd_errno r =? EINTR) with false
      by (symmetry; apply Z.eqb_neq; exact Herr).
    reflexivity.
  - replace ((rd_nbytes r <? 0) && negb (rd_errno r =? EINTR)) with false.
    + rewrite bind_ret_l. reflexivity.
    + symmetry. apply andb_false_iff. destruct Hcase as [Hr|Hr].
      * left. apply Z.ltb_ge. exact Hr.
      * right. rewrite Hr. reflexivity.
Qed.

Lemma read_failure_reporting_witness :
  failed_read interrupted_read /\
  (rd_nbytes interrupted_read < 0 /\ rd_errno interrupted_read <> EINTR ->
   observed (while_true example_host (empty_frame, stale_packet))
     (mk_env [interrupted_read] [] [])
   ≈ (ITree.trigger (Stderr "read CAN") ;;
      observed (while_true example_host (example_frame, stale_packet))
        (mk_env [] [] [])))
  /\ (0 <= rd_nbytes interrupted_read \/ rd_errno interrupted_read = EINTR ->
      observed (while_true example_host (empty_frame, stale_packet))
        (mk_env [interrupted_read] [] [])
      ≈ observed (while_true example_host (example_frame, stale_packet))
          (mk_env [] [] [])).
Proof.
  assert (H : failed_read interrupted_read)
    by (unfold failed_read, sizeof_canfd_frame, size_t_of, u64; cbn; lia).
  split; [exact H|].
  exact (read_failure_reporting example_host empty_frame stale_packet
           interrupted_read [] [] [] H).
Defined.

(** X6: The timestamp is the clock reading in nanoseconds modulo 2^64,
    whatever the reading. *)
Theorem timespec_ns_mod ts :
  timespec_ns ts = (tv_sec ts * 1000000000 + tv_nsec ts) mod 2 ^ 64
  /\ is_u64 (timespec_ns ts).
Proof.
  unfold timespec_ns, u64, is_u64. split.
  - rewrite Z.mul_mod_idemp_l by lia.
    rewrite <- Z.add_mod by lia. reflexivity.
  - apply Z.mod_pos_bound. lia.
Qed.

(** ** Nothing is lost on the wire *)

Lemma le_bytes_inj n : forall v1 v2,
  0 <= v1 < 256 ^ Z.of_nat n -> 0 <= v2 < 256 ^ Z.of_nat n ->
  le_bytes n v1 = le_bytes n v2 -> v1 = v2.
Proof.
  induction n as [|n IH]; intros v1 v2 H1 H2 Heq.
  - change (256 ^ Z.of_nat 0) with 1 in *. lia.
  - rewrite Nat2Z.inj_succ, Z.pow_succ_r in H1, H2 by lia.
    cbn [le_bytes] in Heq. injection Heq as Hlow Hhigh.
    assert (Hdiv : v1 / 256 = v2 / 256).
    { apply IH; [| |exact Hhigh];
        (split; [apply Z.div_pos; lia | apply Z.div_lt_upper_bound; lia]). }
    rewrite (Z.div_mod v1 256), (Z.div_mod v2 256) by lia. congruence.
Qed.

Lemma scalar_bytes_inj e n v1 v2 :
  0 <= v1 < 256 ^ Z.of_nat n -> 0 <= v2 < 256 ^ Z.of_nat n ->
  scalar_bytes e n v1 = scalar_bytes e n v2 -> v1 = v2.
Proof.
  intros H1 H2 Heq. apply (le_bytes_inj n); auto.
  destruct e; cbn [scalar_bytes] in Heq; [exact Heq|].
  rewrite <- (rev_involutive (le_bytes n v1)), Heq. apply rev_involutive.
Qed.

Lemma app_inj_length {A : Type} (a b x y : list A) :
  length a = length b -> a ++ x = b ++ y -> a = b /\ x = y.
Proof.
  revert b; induction a as [|c a IH]; intros [|d b] Hlen Heq;
    try discriminate; [now split|].
  cbn in Heq. injection Heq as -> Heq. injection Hlen as Hlen.
  destruct (IH b Hlen Heq) as [-> ->]. now split.
Qed.

(** X8: Two well-formed packets with the same 78 bytes are the same
    packet: a receiver that knows the byte order of the sender can
    read back every member. *)
Theorem wire_injective h p1 p2 :
  GatewayPacket.wf p1 -> GatewayPacket.wf p2 ->
  wire h p1 = wire h p2 -> p1 = p2.
Proof.
  intros (Ht1 & Hi1 & Hl1 & Hf1 & Hd1 & _) (Ht2 & Hi2 & Hl2 & Hf2 & Hd2 & _).
  unfold wire. rewrite !packet_bytes_layout by assumption. intros Heq.
  apply app_inj_length in Heq as [Hts Heq]; [|now rewrite !scalar_bytes_length].
  apply app_inj_length in Heq as [Hid Heq]; [|now rewrite !scalar_bytes_length].
  apply app_inj_length in Heq as [Hdlc Heq]; [|now rewrite !scalar_bytes_length].
  apply app_inj_length in Heq as [Hfl Hdata]; [|now rewrite !scalar_bytes_length].
  apply scalar_bytes_inj in Hts; [|exact Ht1|exact Ht2].
  apply scalar_bytes_inj in Hid; [|exact Hi1|exact Hi2].
  apply scalar_bytes_inj in Hdlc; [|exact Hl1|exact Hl2].
  apply scalar_bytes_inj in Hfl; [|exact Hf1|exact Hf2].
  destruct p1, p2; cbn in *; congruence.
Qed.

Lemma wire_injective_witness :
  GatewayPacket.wf stale_packet /\ GatewayPacket.wf stale_packet /\
  wire example_host stale_packet = wire example_host stale_packet /\
  stale_packet = stale_packet.
Proof.
  split; [by_evaluation | split; [by_evaluation | split; [reflexivity|]]].
  apply (wire_injective example_host stale_packet stale_packet);
    by_evaluation.
Defined.

Lemma timespec_ns_monotone_witness :
  0 <= tv_sec one_second /\ 0 <= tv_nsec one_second < 1000000000 /\
  0 <= tv_nsec (mk_timespec 1 5) < 1000000000 /\
  tv_sec (mk_timespec 1 5) * 1000000000 + tv_nsec (mk_timespec 1 5) < 2 ^ 64 /\
  (tv_sec one_second < tv_sec (mk_timespec 1 5)
   \/ (tv_sec one_second = tv_sec (mk_timespec 1 5)
       /\ tv_nsec one_second <= tv_nsec (mk_timespec 1 5))) /\
  timespec_ns one_second <= timespec_ns (mk_timespec 1 5).
Proof.
  assert (H : tv_sec one_second < tv_sec (mk_timespec 1 5)
              \/ (tv_sec one_second = tv_sec (mk_timespec 1 5)
                  /\ tv_nsec one_second <= tv_nsec (mk_timespec 1 5)))
    by (right; cbn; lia).
  do 4 (split; [cbn; lia|]). split; [exact H|].
  apply (timespec_ns_monotone one_second (mk_timespec 1 5));
    [cbn; lia | cbn; lia | cbn; lia | cbn; lia | exact H].
Defined.

(* ================================================================== *)
(** * Start-up *)

(** ** The interface name *)

Lemma c_str_nonzero s : Forall (fun b => b <> 0) (c_str s).
Proof.
  induction s as [|c s IH]; cbn [c_str]; [constructor|].
  destruct (char_code c =? 0) eqn:Hc; constructor; [|exact IH].
  apply Z.eqb_neq. exact Hc.
Qed.

Lemma until_nul_terminated l r :
  Forall (fun b => b <> 0) l -> until_nul (l ++ 0 :: r) = l.
Proof.
  induction 1 as [|b l Hb _ IH]; [reflexivity|].
  cbn [app until_nul]. apply Z.eqb_neq in Hb. rewrite Hb. now rewrite IH.
Qed.

Lemma set_ifr_name_closed_form ifr_name ifname :
  length ifr_name = 16%nat ->
  set_ifr_name ifr_name ifname
  = Some (firstn 15 (c_str ifname)
          ++ 0 :: repeat 0 (15 - length (c_str ifname))).
Proof.
  intros Hlen. unfold set_ifr_name, strncpy, IFNAMSIZ. rewrite Hlen.
  change (16 - 1 <=? Z.of_nat 16) with true. cbv iota.
  change (Z.to_nat (16 - 1)) with 15%nat.
  set (cs := c_str ifname).
  set (P := firstn 15 cs ++ repeat 0 (15 - length cs)).
  assert (HP : length P = 15%nat)
    by (unfold P; rewrite length_app, length_firstn, repeat_length; lia).
  assert (Htail : length (skipn 15 ifr_name) = 1%nat)
    by (rewrite length_skipn, Hlen; reflexivity).
  rewrite (app_assoc (firstn 15 cs)). fold P.
  unfold store_byte. rewrite length_app, HP, Htail.
  change ((0 <=? 16 - 1) && (16 - 1 <? Z.of_nat (15 + 1))) with true. cbv iota.
  change (Z.to_nat (16 - 1)) with 15%nat. change (u8 0) with 0.
  rewrite firstn_app, HP, Nat.sub_diag, firstn_all2 by lia.
  cbn [firstn]. rewrite app_nil_r.
  rewrite skipn_all2 by (rewrite length_app, HP, Htail; lia).
  unfold P. rewrite <- app_assoc. f_equal. f_equal.
  change [0] with (repeat 0 1). rewrite <- repeat_app.
  change (0 :: repeat 0 (15 - length cs)) with (repeat 0 (S (15 - length cs))).
  f_equal. lia.
Qed.

(** X11: The name handed to [ioctl] is always a terminated string in the
    16 bytes of the structure: the interface name if it has at most 15
    characters, its first 15 characters otherwise, with no complaint;
    and what the structure held before does not show. *)
Theorem interface_name_truncated ifr_name ifname :
  length ifr_name = 16%nat ->
  exists name,
    set_ifr_name ifr_name ifname = Some name
    /\ set_ifr_name (repeat 0 16) ifname = Some name
    /\ length name = 16%nat
    /\ nth_error name 15 = Some 0
    /\ until_nul name = firstn 15 (c_str ifname)
    /\ ((length (c_str ifname) <= 15)%nat -> until_nul name = c_str ifname).
Proof.
  intros Hlen. eexists.
  split; [apply set_ifr_name_closed_form; exact Hlen|].
  split; [apply set_ifr_name_closed_form; reflexivity|].
  set (cs := c_str ifname).
  assert (Hpre : length (firstn 15 cs) = Nat.min 15 (length cs))
    by apply length_firstn.
  split; [|split; [|split]].
  - rewrite length_app. cbn [length]. rewrite Hpre, repeat_length. lia.
  - destruct (Nat.le_gt_cases 15 (length cs)) as [Hlong|Hshort].
    + rewrite nth_error_app2 by lia. rewrite Hpre.
      replace (15 - Nat.min 15 (length cs))%nat with 0%nat by lia. reflexivity.
    + rewrite nth_error_app2 by lia. rewrite Hpre.
      replace (15 - Nat.min 15 (length cs))%nat
        with (S (14 - length cs)) by lia.
      cbn [nth_error]. apply nth_error_repeat. lia.
  - apply until_nul_terminated.
    pose proof (c_str_nonzero ifname) as Hnz. fold cs in Hnz.
    rewrite <- (firstn_skipn 15 cs) in Hnz. apply Forall_app in Hnz. apply Hnz.
  - intros Hshort. rewrite until_nul_terminated.
    + apply firstn_all2. exact Hshort.
    + pose proof (c_str_nonzero ifname) as Hnz. fold cs in Hnz.
      rewrite <- (firstn_skipn 15 cs) in Hnz. apply Forall_app in Hnz. apply Hnz.
Qed.

Lemma interface_name_truncated_witness :
  length (repeat 0xCC 16) = 16%nat /\
  exists name,
    set_ifr_name (repeat 0xCC 16) "averyveryverylonginterface" = Some name
    /\ set_ifr_name (repeat 0 16) "averyveryverylonginterface" = Some name
    /\ length name = 16%nat
    /\ nth_error name 15 = Some 0
    /\ until_nul name = firstn 15 (c_str "averyveryverylonginterface")
    /\ ((length (c_str "averyveryverylonginterface") <= 15)%nat ->
        until_nul name = c_str "averyveryverylonginterface").
Proof.
  split; [reflexivity|].
  apply (interface_name_truncated (repeat 0xCC 16) "averyveryverylonginterface").
  reflexivity.
Defined.

(** ** [parse_address] *)

Lemma digit_char_facts d :
  is_decimal_digit d ->
  is_digit (digit_char d) = true /\ digit_value (digit_char d) = d
  /\ is_space (digit_char d) = false
  /\ (char_code (digit_char d) =? 45) = false
  /\ (char_code (digit_char d) =? 43) = false.
Proof.
  unfold is_decimal_digit. intros Hd.
  assert (d = 0 \/ d = 1 \/ d = 2 \/ d = 3 \/ d = 4 \/ d = 5 \/ d = 6
          \/ d = 7 \/ d = 8 \/ d = 9) as Hcases by lia.
  repeat (destruct Hcases as [->|Hcases]; [repeat split|]).
  subst d. repeat split.
Qed.

Lemma scan_digits_digit_string ds : forall acc rest,
  Forall is_decimal_digit ds -> starts_with is_digit rest = false ->
  scan_digits acc (digit_string ds ++ rest)
  = (fold_left (fun a d => a * 10 + d) ds acc, rest).
Proof.
  induction ds as [|d ds IH]; intros acc rest Hds Hrest.
  - cbn [digit_string String.append fold_left].
    destruct rest as [|c rest]; [reflexivity|].
    cbn in Hrest. cbn [scan_digits]. now rewrite Hrest.
  - inversion Hds as [|? ? Hd Hds']; subst.
    destruct (digit_char_facts d Hd) as (Hdig & Hval & _).
    cbn [digit_string String.append scan_digits fold_left].
    rewrite Hdig, Hval. apply IH; assumption.
Qed.

Lemma scan_d_digit_string d ds rest :
  Forall is_decimal_digit (d :: ds) -> starts_with is_digit rest = false ->
  scan_d (digit_string (d :: ds) ++ rest) = Some (digits_value (d :: ds)).
Proof.
  intros Hds Hrest. inversion Hds as [|? ? Hd Hds']; subst.
  destruct (digit_char_facts d Hd) as (Hdig & Hval & Hsp & Hminus & Hplus).
  unfold scan_d. cbn [digit_string String.append skip_spaces].
  rewrite Hsp, Hminus, Hplus, Hdig.
  change (String (digit_char d) (digit_string ds ++ rest))
    with (digit_string (d :: ds) ++ rest)%string.
  rewrite scan_digits_digit_string by assumption. reflexivity.
Qed.

Lemma scan_not_colon_plain ip : forall width rest,
  plain_host ip = true -> (String.length ip <= width)%nat ->
  scan_not_colon width (ip ++ colon ++ rest) = (ip, (colon ++ rest)%string).
Proof.
  induction ip as [|c ip IH]; intros width rest Hplain Hlen.
  - cbn. destruct width; reflexivity.
  - cbn [plain_host] in Hplain. apply andb_true_iff in Hplain as [Hc Hplain].
    apply negb_true_iff in Hc.
    destruct width as [|width]; [cbn in Hlen; lia|].
    cbn [String.append scan_not_colon]. rewrite Hc.
    rewrite IH by (auto; cbn in Hlen; lia). reflexivity.
Qed.

(** What the scan makes of [host:digits] followed by anything that is
    not one more digit. *)
Lemma sscanf_ip_port_scanned ip d ds rest :
  ip <> EmptyString -> plain_host ip = true -> (String.length ip <= 63)%nat ->
  Forall is_decimal_digit (d :: ds) -> starts_with is_digit rest = false ->
  sscanf_ip_port (ip ++ colon ++ digit_string (d :: ds) ++ rest)
  = Some (ip, digits_value (d :: ds)).
Proof.
  intros Hne Hplain Hlen Hds Hrest. unfold sscanf_ip_port.
  rewrite scan_not_colon_plain by assumption.
  destruct ip as [|c ip]; [contradiction|].
  cbn [colon String.append]. change (char_code (Ascii.ascii_of_nat 58) =? 58) with true.
  cbv iota. rewrite scan_d_digit_string by assumption. reflexivity.
Qed.

(** X12: An address of the form [host:digits], followed by anything that
    does not go on with a digit, is scanned to the end of the digits
    and no further: what follows is ignored, the number is not checked
    against the range of ports but cut to its low 16 bits, and the
    result is what [inet_pton] says of the host part. When that is a
    refusal, family and port of [addr] are overwritten already. *)
Theorem parse_address_accepts inet_pton h ip d ds rest addr :
  ip <> EmptyString -> plain_host ip = true -> (String.length ip <= 63)%nat ->
  Forall is_decimal_digit (d :: ds) -> digits_value (d :: ds) <= INT_MAX ->
  starts_with is_digit rest = false ->
  parse_address inet_pton h (ip ++ colon ++ digit_string (d :: ds) ++ rest) addr
  = Some match inet_pton ip with
         | Some a =>
             (true, mk_sockaddr_in AF_INET
                      (htons h (digits_value (d :: ds) mod 65536)) a)
         | None =>
             (false, mk_sockaddr_in AF_INET
                       (htons h (digits_value (d :: ds) mod 65536))
                       (sin_addr addr))
         end.
Proof.
  intros Hne Hplain Hlen Hds Hmax Hrest. unfold parse_address.
  rewrite sscanf_ip_port_scanned by assumption.
  assert (Hpos : 0 <= digits_value (d :: ds)).
  { unfold digits_value. generalize (d :: ds) Hds. intros l Hl.
    assert (Hgen : forall acc, 0 <= acc ->
              0 <= fold_left (fun a x => a * 10 + x) l acc).
    { induction Hl as [|x l Hx _ IH]; intros acc Hacc; [exact Hacc|].
      cbn [fold_left]. apply IH. unfold is_decimal_digit in Hx. lia. }
    apply Hgen. lia. }
  replace ((INT_MIN <=? digits_value (d :: ds))
           && (digits_value (d :: ds) <=? INT_MAX)) with true.
  - cbn [sin_family sin_port sin_addr]. unfold u16.
    destruct (inet_pton ip); reflexivity.
  - symmetry. apply andb_true_iff. split; apply Z.leb_le;
      [unfold INT_MIN; lia | exact Hmax].
Qed.

(** Port 70000, with a tail: accepted as port 4464. *)
Lemma parse_address_accepts_witness :
  "192.168.1.100"%string <> EmptyString /\
  plain_host "192.168.1.100" = true /\
  (String.length "192.168.1.100" <= 63)%nat /\
  Forall is_decimal_digit [7; 0; 0; 0; 0] /\
  digits_value [7; 0; 0; 0; 0] <= INT_MAX /\
  starts_with is_digit "/udp" = false /\
  parse_address toy_inet_pton example_host "192.168.1.100:70000/udp"
    (mk_sockaddr_in 0 0 0)
  = Some (true, mk_sockaddr_in AF_INET (htons example_host 4464) 0x6401A8C0).
Proof.
  assert (Hds : Forall is_decimal_digit [7; 0; 0; 0; 0])
    by (repeat constructor; unfold is_decimal_digit; lia).
  split; [discriminate|]. split; [reflexivity|]. split; [cbn; lia|].
  split; [exact Hds|]. split; [vm_compute; discriminate|]. split; [reflexivity|].
  apply (parse_address_accepts toy_inet_pton example_host "192.168.1.100"
           7 [0; 0; 0; 0] "/udp" (mk_sockaddr_in 0 0 0));
    [discriminate | reflexivity | cbn; lia | exact Hds
    | vm_compute; discriminate | reflexivity].
Defined.

(** X13: What [parse_address] turns down, leaving [addr] as it was: a
    string without a colon, one that starts with a colon, one whose
    host part is longer than 63 characters, and one where the colon is
    not followed by a number. *)
Theorem parse_address_rejects inet_pton h addr :
  (forall s, plain_host s = true ->
     parse_address inet_pton h s addr = Some (false, addr))
  /\ (forall rest,
        parse_address inet_pton h (colon ++ rest) addr = Some (false, addr))
  /\ (forall s rest, plain_host s = true -> (63 < String.length s)%nat ->
        parse_address inet_pton h (s ++ rest) addr = Some (false, addr))
  /\ (forall ip rest, plain_host ip = true ->
        scan_d rest = None ->
        parse_address inet_pton h (ip ++ colon ++ rest) addr = Some (false, addr)).
Proof.
  assert (Hnone : forall s, sscanf_ip_port s = None ->
            parse_address inet_pton h s addr = Some (false, addr))
    by (intros s Hs; unfold parse_address; now rewrite Hs).
  assert (Hwhole : forall s width, plain_host s = true ->
            (String.length s <= width)%nat ->
            scan_not_colon width s = (s, EmptyString)).
  { induction s as [|c s IH]; intros width Hplain Hlen;
      [destruct width; reflexivity|].
    cbn [plain_host] in Hplain. apply andb_true_iff in Hplain as [Hc Hplain].
    apply negb_true_iff in Hc.
    destruct width as [|width]; [cbn in Hlen; lia|].
    cbn [scan_not_colon]. rewrite Hc, IH by (auto; cbn in Hlen; lia).
    reflexivity. }
  assert (Hlong : forall width s rest, plain_host s = true ->
            (width < String.length s)%nat ->
            exists taken c left,
              scan_not_colon width (s ++ rest) = (taken, String c left)
              /\ (char_code c =? 58) = false).
  { induction width as [|width IH]; intros s rest Hplain Hlen.
    - destruct s as [|c s]; [cbn in Hlen; lia|].
      cbn [plain_host] in Hplain. apply andb_true_iff in Hplain as [Hc _].
      apply negb_true_iff, orb_false_iff in Hc as [_ Hc].
      exists EmptyString, c, (s ++ rest)%string. split; [reflexivity|exact Hc].
    - destruct s as [|c s]; [cbn in Hlen; lia|].
      cbn [plain_host] in Hplain. apply andb_true_iff in Hplain as [Hc Hplain].
      apply negb_true_iff in Hc.
      destruct (IH s rest Hplain) as (taken & c' & left & Hscan & Hc');
        [cbn in Hlen; lia|].
      exists (String c taken), c', left. split; [|exact Hc'].
      cbn [String.append scan_not_colon]. now rewrite Hc, Hscan. }
  split; [|split; [|split]].
  - intros s Hplain. apply Hnone. unfold sscanf_ip_port.
    destruct (Nat.le_gt_cases (String.length s) 63) as [Hshort|Hlen].
    + rewrite Hwhole by assumption. destruct s; reflexivity.
    + destruct (Hlong 63%nat s EmptyString Hplain Hlen)
        as (taken & c & left & Hscan & Hc).
      replace (s ++ "")%string with s in Hscan
        by (clear; induction s as [|a s IH]; cbn; [|rewrite <- IH]; reflexivity).
      rewrite Hscan, Hc. destruct taken; reflexivity.
  - intros rest. apply Hnone. reflexivity.
  - intros s rest Hplain Hlen. apply Hnone. unfold sscanf_ip_port.
    destruct (Hlong 63%nat s rest Hplain Hlen) as (taken & c & left & Hscan & Hc).
    rewrite Hscan, Hc. destruct taken; reflexivity.
  - intros ip rest Hplain Hrest. apply Hnone. unfold sscanf_ip_port.
    destruct (Nat.le_gt_cases (String.length ip) 63) as [Hshort|Hlen].
    + rewrite scan_not_colon_plain by assumption.
      destruct ip; [reflexivity|].
      cbn [colon String.append].
      change (char_code (Ascii.ascii_of_nat 58) =? 58) with true. cbv iota.
      now rewrite Hrest.
    + destruct (Hlong 63%nat ip (colon ++ rest)%string Hplain Hlen)
        as (taken & c & left & Hscan & Hc).
      rewrite Hscan, Hc. destruct taken; reflexivity.
Qed.



(** ** The process before the loop *)

(** Runs a start-up computation symbolically, one test at a time. *)
Ltac run_proc :=
  unfold main, open_can_socket, open_udp_socket, set_realtime_priority,
    proc_bind, proc_ret, call, printf, fprintf_stderr, perror, exit,
    defined, ask;
  cbn beta iota zeta delta [fst snd];
  repeat match goal with
    | |- context [if ?b then _ else _] =>
        lazymatch b with
        | orb _ _ => fail
        | _ => destruct b eqn:?; cbn beta iota zeta delta [fst snd app orb]
        end
    end.

Lemma main_outcome h ifr_name prog args o :
  length ifr_name = 16%nat ->
  snd (main h ifr_name prog args o)
  = match args with
    | [can_if; dest_str] =>
        match parse_address (os_inet_pton o) h dest_str (mk_sockaddr_in 0 0 0) with
        | None => Undefined
        | Some (false, _) => Exited EXIT_FAILURE
        | Some (true, dest_addr) =>
            let s := answer o (sys_socket PF_CAN SOCK_RAW CAN_RAW_FD_FRAMES) in
            let name := ifr_name_of can_if in
            let u := answer o (sys_socket AF_INET SOCK_DGRAM 0) in
            if (s <? 0)
               || (answer o (sys_ioctl s SIOCGIFINDEX name) <? 0)
               || (answer o (sys_bind s AF_CAN (ifindex_of o name)) <? 0)
               || (u <? 0)
            then Exited EXIT_FAILURE
            else Returned (s, u, dest_addr)
        end
    | _ => Exited EXIT_FAILURE
    end.
Proof.
  intros Hlen.
  destruct args as [|can_if [|dest_str [|extra args]]]; try reflexivity.
  unfold main, proc_bind at 1, defined.
  destruct (parse_address (os_inet_pton o) h dest_str (mk_sockaddr_in 0 0 0))
    as [[[|] dest_addr]|]; try reflexivity.
  cbn beta iota zeta delta [negb].
  unfold open_can_socket.
  rewrite (set_ifr_name_closed_form ifr_name can_if Hlen).
  fold (ifr_name_of can_if).
  run_proc; reflexivity.
Qed.

Lemma main_io_calls h ifr_name prog args o :
  length ifr_name = 16%nat ->
  io_calls (fst (main h ifr_name prog args o))
  = match args with
    | [can_if; dest_str] =>
        match parse_address (os_inet_pton o) h dest_str (mk_sockaddr_in 0 0 0) with
        | Some (true, _) => expected_io_calls o can_if
        | _ => []
        end
    | _ => []
    end.
Proof.
  intros Hlen.
  destruct args as [|can_if [|dest_str [|extra args]]]; try reflexivity.
  unfold main, proc_bind at 1, defined.
  destruct (parse_address (os_inet_pton o) h dest_str (mk_sockaddr_in 0 0 0))
    as [[[|] dest_addr]|]; try reflexivity.
  cbn beta iota zeta delta [negb].
  unfold open_can_socket, expected_io_calls.
  rewrite (set_ifr_name_closed_form ifr_name can_if Hlen).
  fold (ifr_name_of can_if).
  run_proc; reflexivity.
Qed.

(** X15: The process gets to the forward loop exactly when it was given two
    arguments, the destination parses, and the four calls that set up
    the two sockets succeed; the loop then runs on the descriptors
    those calls returned and on the parsed destination. Whatever the
    tuning calls and [setsockopt] return has no part in it, and any
    other way out of start-up is exit status [EXIT_FAILURE]. *)
Theorem main_reaches_the_loop h ifr_name prog args o c u d :
  length ifr_name = 16%nat ->
  (snd (main h ifr_name prog args o) = Returned (c, u, d) <->
   exists can_if dest_str,
     args = [can_if; dest_str]
     /\ parse_address (os_inet_pton o) h dest_str (mk_sockaddr_in 0 0 0)
        = Some (true, d)
     /\ c = answer o (sys_socket PF_CAN SOCK_RAW CAN_RAW_FD_FRAMES) /\ 0 <= c
     /\ 0 <= answer o (sys_ioctl c SIOCGIFINDEX (ifr_name_of can_if))
     /\ 0 <= answer o (sys_bind c AF_CAN (ifindex_of o (ifr_name_of can_if)))
     /\ u = answer o (sys_socket AF_INET SOCK_DGRAM 0) /\ 0 <= u)
  /\ (forall status,
        snd (main h ifr_name prog args o) = Exited status ->
        status = EXIT_FAILURE).
Proof.
  intros Hlen. rewrite (main_outcome h ifr_name prog args o Hlen).
  split.
  - split.
    + intros Hout.
      destruct args as [|can_if [|dest_str [|extra args]]]; try discriminate.
      destruct (parse_address _ _ _ _) as [[[|] dest_addr]|] eqn:Hparse;
        try discriminate.
      cbv zeta in Hout.
      destruct (_ || _) eqn:Htests in Hout; [discriminate|].
      injection Hout as <- <- <-.
      apply orb_false_iff in Htests as [Htests Hu].
      apply orb_false_iff in Htests as [Htests Hbind].
      apply orb_false_iff in Htests as [Hs Hioctl].
      apply Z.ltb_ge in Hs, Hioctl, Hbind, Hu.
      exists can_if, dest_str. repeat split; auto.
    + intros (can_if & dest_str & -> & -> & -> & Hs & Hioctl & Hbind & -> & Hu).
      cbv zeta. apply Z.ltb_ge in Hs, Hioctl, Hbind, Hu.
      rewrite Hs, Hioctl, Hbind, Hu. reflexivity.
  - intros status Hout.
    destruct args as [|can_if [|dest_str [|extra args]]];
      try (injection Hout as <-; reflexivity).
    destruct (parse_address _ _ _ _) as [[[|] dest_addr]|];
      try discriminate; try (injection Hout as <-; reflexivity).
    cbv zeta in Hout. destruct (_ || _) in Hout; [|discriminate].
    injection Hout as <-. reflexivity.
Qed.

Lemma main_reaches_the_loop_witness :
  length (repeat 0xCC 16) = 16%nat /\
  (snd (main example_host (repeat 0xCC 16) "gw"
          ["can0"; "192.168.1.100:5000"]%string toy_os)
   = Returned (3, 4, mk_sockaddr_in AF_INET (htons example_host 5000) 0x6401A8C0)
   <->
   exists can_if dest_str,
     ["can0"; "192.168.1.100:5000"]%string = [can_if; dest_str]
     /\ parse_address (os_inet_pton toy_os) example_host dest_str
          (mk_sockaddr_in 0 0 0)
        = Some (true, mk_sockaddr_in AF_INET (htons example_host 5000) 0x6401A8C0)
     /\ 3 = answer toy_os (sys_socket PF_CAN SOCK_RAW CAN_RAW_FD_FRAMES) /\ 0 <= 3
     /\ 0 <= answer toy_os (sys_ioctl 3 SIOCGIFINDEX (ifr_name_of can_if))
     /\ 0 <= answer toy_os
               (sys_bind 3 AF_CAN (ifindex_of toy_os (ifr_name_of can_if)))
     /\ 4 = answer toy_os (sys_socket AF_INET SOCK_DGRAM 0) /\ 0 <= 4)
  /\ (forall status,
        snd (main example_host (repeat 0xCC 16) "gw"
               ["can0"; "192.168.1.100:5000"]%string toy_os) = Exited status ->
        status = EXIT_FAILURE).
Proof.
  split; [reflexivity|].
  apply (main_reaches_the_loop example_host (repeat 0xCC 16) "gw"
           ["can0"; "192.168.1.100:5000"]%string toy_os 3 4
           (mk_sockaddr_in AF_INET (htons example_host 5000) 0x6401A8C0)).
  reflexivity.
Defined.

(** X16: Memory locking and real-time scheduling are best effort: two
    systems that differ only in what they answer to those calls see
    the same start-up, call for call on the sockets, with the same
    end. *)
Theorem tuning_is_best_effort h ifr_name prog args o1 o2 :
  length ifr_name = 16%nat -> same_but_tuning o1 o2 ->
  snd (main h ifr_name prog args o1) = snd (main h ifr_name prog args o2)
  /\ io_calls (fst (main h ifr_name prog args o1))
     = io_calls (fst (main h ifr_name prog args o2)).
Proof.
  intros Hlen (Hans & Hidx & Hpton & _).
  rewrite !main_outcome, !main_io_calls by exact Hlen.
  destruct args as [|can_if [|dest_str [|extra args]]]; try (split; reflexivity).
  assert (Hparse : forall s a,
            parse_address (os_inet_pton o1) h s a
            = parse_address (os_inet_pton o2) h s a).
  { intros s a. unfold parse_address.
    destruct (sscanf_ip_port s) as [[ip port]|]; [|reflexivity].
    now rewrite Hpton. }
  rewrite Hparse.
  destruct (parse_address _ _ _ _) as [[[|] dest_addr]|]; try (split; reflexivity).
  unfold expected_io_calls. cbv zeta.
  rewrite <- !Hidx.
  rewrite <- (Hans (sys_socket PF_CAN SOCK_RAW CAN_RAW_FD_FRAMES) eq_refl).
  rewrite <- (Hans (sys_socket AF_INET SOCK_DGRAM 0) eq_refl).
  rewrite <- (Hans (sys_ioctl _ _ _) eq_refl).
  rewrite <- (Hans (sys_bind _ _ _) eq_refl).
  rewrite <- (Hans (sys_close _) eq_refl).
  rewrite <- (Hans (sys_setsockopt _ _ _ _) eq_refl).
  split; reflexivity.
Qed.

Lemma tuning_is_best_effort_witness :
  length (repeat 0xCC 16) = 16%nat /\ same_but_tuning toy_os privileged_os /\
  snd (main example_host (repeat 0xCC 16) "gw"
         ["can0"; "192.168.1.100:5000"]%string toy_os)
  = snd (main example_host (repeat 0xCC 16) "gw"
           ["can0"; "192.168.1.100:5000"]%string privileged_os)
  /\ io_calls (fst (main example_host (repeat 0xCC 16) "gw"
                      ["can0"; "192.168.1.100:5000"]%string toy_os))
     = io_calls (fst (main example_host (repeat 0xCC 16) "gw"
                        ["can0"; "192.168.1.100:5000"]%string privileged_os)).
Proof.
  assert (H : same_but_tuning toy_os privileged_os).
  { split; [|repeat split].
    intros c Hc. cbn [answer privileged_os]. rewrite Hc. reflexivity. }
  split; [reflexivity | split; [exact H|]].
  apply (tuning_is_best_effort example_host (repeat 0xCC 16) "gw"
           ["can0"; "192.168.1.100:5000"]%string toy_os privileged_os);
    [reflexivity | exact H].
Defined.

(** X17: With the wrong number of arguments or a destination that does not
    parse, the process ends with [EXIT_FAILURE] before it has made a
    single system call. *)
Theorem bad_configuration_makes_no_call h ifr_name prog args o :
  (forall can_if dest_str, args = [can_if; dest_str] ->
     exists a, parse_address (os_inet_pton o) h dest_str (mk_sockaddr_in 0 0 0)
               = Some (false, a)) ->
  snd (main h ifr_name prog args o) = Exited EXIT_FAILURE
  /\ Forall (fun a => is_call a = false) (fst (main h ifr_name prog args o)).
Proof.
  intros Hbad.
  destruct args as [|can_if [|dest_str [|extra args]]];
    try (split; [reflexivity | cbn; repeat constructor]).
  destruct (Hbad can_if dest_str eq_refl) as [a Hparse].
  unfold main, proc_bind, defined. rewrite Hparse.
  split; [reflexivity | cbn; repeat constructor].
Qed.

Lemma bad_configuration_makes_no_call_witness :
  (forall can_if dest_str,
     ["can0"; "192.168.1.100"]%string = [can_if; dest_str] ->
     exists a, parse_address (os_inet_pton toy_os) example_host dest_str
                 (mk_sockaddr_in 0 0 0) = Some (false, a)) /\
  snd (main example_host (repeat 0xCC 16) "gw"
         ["can0"; "192.168.1.100"]%string toy_os) = Exited EXIT_FAILURE
  /\ Forall (fun a => is_call a = false)
       (fst (main example_host (repeat 0xCC 16) "gw"
               ["can0"; "192.168.1.100"]%string toy_os)).
Proof.
  assert (H : forall can_if dest_str,
            ["can0"; "192.168.1.100"]%string = [can_if; dest_str] ->
            exists a, parse_address (os_inet_pton toy_os) example_host dest_str
                        (mk_sockaddr_in 0 0 0) = Some (false, a)).
  { intros can_if dest_str Heq. injection Heq as <- <-.
    exists (mk_sockaddr_in 0 0 0). reflexivity. }
  split; [exact H|].
  apply (bad_configuration_makes_no_call example_host (repeat 0xCC 16) "gw"
           ["can0"; "192.168.1.100"]%string toy_os H).
Defined.

(** X18: When the CAN socket exists but cannot be bound to the interface
    ([ioctl] or [bind] fails), the process closes it as its last call,
    never opens the UDP socket, and ends with [EXIT_FAILURE]. *)
Theorem failed_can_setup_closes_the_socket h ifr_name prog can_if dest_str o d :
  length ifr_name = 16%nat ->
  parse_address (os_inet_pton o) h dest_str (mk_sockaddr_in 0 0 0) = Some (true, d) ->
  0 <= can_socket_of o ->
  answer o (sys_ioctl (can_socket_of o) SIOCGIFINDEX (ifr_name_of can_if)) < 0
  \/ answer o (sys_bind (can_socket_of o) AF_CAN
                 (ifindex_of o (ifr_name_of can_if))) < 0 ->
  snd (main h ifr_name prog [can_if; dest_str] o) = Exited EXIT_FAILURE
  /\ last (io_calls (fst (main h ifr_name prog [can_if; dest_str] o)))
       (sys_close (-1), 0)
     = (sys_close (can_socket_of o), answer o (sys_close (can_socket_of o)))
  /\ (forall domain type protocol ret,
        In (sys_socket domain type protocol, ret)
          (io_calls (fst (main h ifr_name prog [can_if; dest_str] o))) ->
        domain = PF_CAN).
Proof.
  intros Hlen Hparse Hs Hfail.
  rewrite main_outcome, main_io_calls by exact Hlen. rewrite Hparse.
  unfold expected_io_calls. cbv zeta.
  fold (can_socket_of o) in *.
  set (s := can_socket_of o) in *. set (name := ifr_name_of can_if) in *.
  replace (s <? 0) with false by (symmetry; apply Z.ltb_ge; exact Hs).
  cbn [orb].
  destruct (answer o (sys_ioctl s SIOCGIFINDEX name) <? 0) eqn:Hioctl.
  - split; [reflexivity|]. split; [reflexivity|].
    intros domain type protocol ret [Hin|[Hin|[Hin|[]]]];
      try discriminate. now injection Hin as <- _ _ _.
  - destruct Hfail as [Hfail|Hfail]; [apply Z.ltb_ge in Hioctl; lia|].
    apply Z.ltb_lt in Hfail. rewrite Hfail.
    split; [reflexivity|]. split; [reflexivity|].
    intros domain type protocol ret [Hin|[Hin|[Hin|[Hin|[]]]]];
      try discriminate. now injection Hin as <- _ _ _.
Qed.

Lemma failed_can_setup_closes_the_socket_witness :
  length (repeat 0xCC 16) = 16%nat /\
  parse_address (os_inet_pton unbindable_os) example_host "192.168.1.100:5000"
    (mk_sockaddr_in 0 0 0)
  = Some (true, mk_sockaddr_in AF_INET (htons example_host 5000) 0x6401A8C0) /\
  0 <= can_socket_of unbindable_os /\
  (answer unbindable_os
     (sys_ioctl (can_socket_of unbindable_os) SIOCGIFINDEX (ifr_name_of "can0")) < 0
   \/ answer unbindable_os
        (sys_bind (can_socket_of unbindable_os) AF_CAN
           (ifindex_of unbindable_os (ifr_name_of "can0"))) < 0) /\
  snd (main example_host (repeat 0xCC 16) "gw"
         ["can0"; "192.168.1.100:5000"]%string unbindable_os)
  = Exited EXIT_FAILURE
  /\ last (io_calls (fst (main example_host (repeat 0xCC 16) "gw"
                            ["can0"; "192.168.1.100:5000"]%string unbindable_os)))
       (sys_close (-1), 0)
     = (sys_close 3, 0)
  /\ (forall domain type protocol ret,
        In (sys_socket domain type protocol, ret)
          (io_calls (fst (main example_host (repeat 0xCC 16) "gw"
                            ["can0"; "192.168.1.100:5000"]%string unbindable_os))) ->
        domain = PF_CAN).
Proof.
  assert (Hfail :
    answer unbindable_os
      (sys_ioctl (can_socket_of unbindable_os) SIOCGIFINDEX (ifr_name_of "can0")) < 0
    \/ answer unbindable_os
         (sys_bind (can_socket_of unbindable_os) AF_CAN
            (ifindex_of unbindable_os (ifr_name_of "can0"))) < 0)
    by (right; cbn; lia).
  split; [reflexivity|]. split; [reflexivity|].
  split; [vm_compute; discriminate|]. split; [exact Hfail|].
  apply (failed_can_setup_closes_the_socket example_host (repeat 0xCC 16) "gw"
           "can0" "192.168.1.100:5000" unbindable_os
           (mk_sockaddr_in AF_INET (htons example_host 5000) 0x6401A8C0));
    [reflexivity | reflexivity | vm_compute; discriminate | exact Hfail].
Defined.

(** X19: The only socket option the process ever sets is the send buffer of
    the UDP socket, to 1 MiB; no option is set on the CAN socket. *)
Theorem only_option_set_is_sndbuf h ifr_name prog args o fd level optname optval ret :
  length ifr_name = 16%nat ->
  In (sys_setsockopt fd level optname optval, ret)
    (io_calls (fst (main h ifr_name prog args o))) ->
  fd = answer o (sys_socket AF_INET SOCK_DGRAM 0)
  /\ level = SOL_SOCKET /\ optname = SO_SNDBUF /\ optval = 2 ^ 20.
Proof.
  intros Hlen. rewrite main_io_calls by exact Hlen.
  destruct args as [|can_if [|dest_str [|extra args]]];
    try (intros Hin; contradiction Hin).
  destruct (parse_address _ _ _ _) as [[[|] dest_addr]|];
    try (intros Hin; contradiction Hin).
  unfold expected_io_calls. cbv zeta.
  repeat match goal with
    | |- context [if ?b then _ else _] => destruct b
    end;
    cbn [In]; intros Hin;
    repeat (destruct Hin as [Hin|Hin]; [try discriminate|]);
    try contradiction;
    injection Hin as <- <- <- <- _; repeat split.
Qed.

Lemma only_option_set_is_sndbuf_witness :
  length (repeat 0xCC 16) = 16%nat /\
  In (sys_setsockopt 4 SOL_SOCKET SO_SNDBUF 1048576, 0)
    (io_calls (fst (main example_host (repeat 0xCC 16) "gw"
                      ["can0"; "192.168.1.100:5000"]%string toy_os))) /\
  4 = answer toy_os (sys_socket AF_INET SOCK_DGRAM 0)
  /\ SOL_SOCKET = SOL_SOCKET /\ SO_SNDBUF = SO_SNDBUF /\ 1048576 = 2 ^ 20.
Proof.
  assert (Hin : In (sys_setsockopt 4 SOL_SOCKET SO_SNDBUF 1048576, 0)
            (io_calls (fst (main example_host (repeat 0xCC 16) "gw"
                              ["can0"; "192.168.1.100:5000"]%string toy_os))))
    by (vm_compute; do 4 right; left; reflexivity).
  split; [reflexivity|]. split; [exact Hin|].
  apply (only_option_set_is_sndbuf example_host (repeat 0xCC 16) "gw"
           ["can0"; "192.168.1.100:5000"]%string toy_os
           4 SOL_SOCKET SO_SNDBUF 1048576 0);
    [reflexivity | exact Hin].
Defined.

(** ** The loop has no exit *)




Lemma forward_loop_timestamps_witness :
  Forall whole_read [example_read; empty_frame_read] /\
  Forall valid_frame (List.map rd_frame [example_read; empty_frame_read]) /\
  length [one_second; mk_timespec 1 5] = 2%nat /\
  length [78; -1] = 2%nat /\
  GatewayPacket.wf stale_packet /\
  exists outs,
    translate_seq stale_packet
      (combine (List.map rd_frame [example_read; empty_frame_read])
         (List.map timespec_ns [one_second; mk_timespec 1 5])) = Some outs
    /\ length outs = 2%nat
    /\ List.map GatewayPacket.timestamp_ns outs
       = List.map timespec_ns [one_second; mk_timespec 1 5]
    /\ observed (while_true example_host (overlong_frame, stale_packet))
         (mk_env ([example_read; empty_frame_read] ++ [interrupted_read])
            ([one_second; mk_timespec 1 5] ++ []) ([78; -1] ++ []))
       ≈ (transmissions example_host (combine outs [78; -1]) ;;
          observed (while_true example_host
                      (frame_after overlong_frame [example_read; empty_frame_read],
                       last outs stale_packet))
            (mk_env [interrupted_read] [] [])).
Proof.
  assert (Hwhole : Forall whole_read [example_read; empty_frame_read])
    by (repeat constructor).
  assert (Hvalid : Forall valid_frame
                     (List.map rd_frame [example_read; empty_frame_read]))
    by by_evaluation.
  split; [exact Hwhole|]. split; [exact Hvalid|].
  split; [reflexivity|]. split; [reflexivity|]. split; [by_evaluation|].
  apply (forward_loop_timestamps example_host [example_read; empty_frame_read]
           [one_second; mk_timespec 1 5] [78; -1] overlong_frame stale_packet
           [interrupted_read] [] [] Hwhole Hvalid eq_refl eq_refl).
  by_evaluation.
Defined.

Lemma failed_read_iff_witness :
  - 2 ^ 63 <= rd_nbytes interrupted_read < 2 ^ 63 /\
  (failed_read interrupted_read <->
   rd_nbytes interrupted_read <> sizeof_canfd_frame).
Proof.
  split; [cbn; lia|].
  apply (failed_read_iff interrupted_read). cbn. lia.
Defined.
